(** * go-fitz: a shallow embedding of [fitz.go] and its checked properties

    [fitz.go] wraps the MuPDF C library.  The Go side of the wrapper is
    embedded below; everything behind the cgo boundary (MuPDF itself, the
    cgo helpers that read and allocate C memory, the operating system, the
    image decoder of the Go standard library) is an oracle collected in the
    record [Env].  Every call through the boundary is logged, so that the
    order of lock operations and native calls can be stated. *)

From Stdlib Require Import ZArith Strings.Byte.
From stdpp Require Import gmap strings list.

Local Open Scope Z_scope.

(** ** Go values *)

(** A Go [string] is a byte sequence; it is kept as a Rocq [string], whose
    characters are 8-bit.  A [[]byte] is a [list byte]. *)
Definition string_of_bytes (b : list byte) : string := String.string_of_list_byte b.
Definition bytes_of_string (s : string) : list byte := String.list_byte_of_string s.

(** Go's [int] is 64 bits wide here, C's [int] is 32 bits wide; both are
    kept as [Z] with the wrap-around written out. *)
Definition wrap (bits : Z) (n : Z) : Z :=
  (n + 2 ^ (bits - 1)) mod 2 ^ bits - 2 ^ (bits - 1).
Definition int64 (n : Z) : Z := wrap 64 n.
Definition C_int (n : Z) : Z := wrap 32 n.

(** ** Content sniffer: [contentType] *)

(** [b[i] == x] for a slice [b].  Every index expression of [contentType]
    stands behind a length test of the same [&&] chain, so the index is in
    range whenever it is evaluated. *)
Definition ix (b : list byte) (i : nat) (x : byte) : bool :=
  match b !! i with
  | Some y => Byte.eqb y x
  | None => false
  end.

Definition contentType (b : list byte) : string :=
  if (3 <? length b)%nat && ix b 0 x25 && ix b 1 x50 && ix b 2 x44 && ix b 3 x46 then
    "application/pdf"
  else if (57 <? length b)%nat && ix b 0 x50 && ix b 1 x4b && ix b 2 x03 && ix b 3 x04
    && ix b 30 x6d && ix b 31 x69 && ix b 32 x6d && ix b 33 x65
    && ix b 34 x74 && ix b 35 x79 && ix b 36 x70 && ix b 37 x65
    && ix b 38 x61 && ix b 39 x70 && ix b 40 x70 && ix b 41 x6c
    && ix b 42 x69 && ix b 43 x63 && ix b 44 x61 && ix b 45 x74
    && ix b 46 x69 && ix b 47 x6f && ix b 48 x6e && ix b 49 x2f
    && ix b 50 x65 && ix b 51 x70 && ix b 52 x75 && ix b 53 x62
    && ix b 54 x2b && ix b 55 x7a && ix b 56 x69 && ix b 57 x70 then
    "application/epub+zip"
  else
    "".

(** The signatures as the specification words them. *)
Definition pdf_magic : list byte := bytes_of_string "%PDF".
Definition zip_magic : list byte := [x50; x4b; x03; x04].
Definition epub_marker : list byte := bytes_of_string "mimetypeapplication/epub+zip".

Definition is_pdf (b : list byte) : Prop :=
  (4 <= length b)%nat ∧ take 4 b = pdf_magic.
Definition is_epub (b : list byte) : Prop :=
  (58 <= length b)%nat ∧ take 4 b = zip_magic ∧ take 28 (drop 30 b) = epub_marker.

(** [pat] occurs in [b] at offset [i], one indexed comparison per byte. *)
Fixpoint matches_at (b : list byte) (i : nat) (pat : list byte) : bool :=
  match pat with
  | [] => true
  | x :: pat' => ix b i x && matches_at b (S i) pat'
  end.

(** ** The cgo boundary *)

(** A C pointer by its address; [0] is [NULL] (Go's [nil]). *)
Definition cptr := Z.

(** A C [float], kept by its IEEE-754 bit pattern. *)
Definition C_float := Z.
Definition float_1_0 : C_float := 0x3F800000.

(** A C struct held in a Go variable and passed by address ([fz_rect],
    [fz_matrix]), by the raw values of its fields. *)
Definition cstruct := list Z.

(** The [fz_outline] forest behind the pointer [pdf_load_outline] returns:
    [outline_nil] is the [NULL] pointer, a node carries the fields
    [fitz.go] reads.  [title] and [uri] are the C strings at those
    pointers, which [C.GoString] copies. *)
Inductive fz_outline : Type :=
| outline_nil
| outline_node (title uri : string) (page : Z) (y : C_float) (down next : fz_outline).

(** One call through the boundary, with its arguments.  [CString],
    [CBytes], [free], [GoString] and [GoStringN] are the cgo helpers of the
    pseudo-package [C]; the others are MuPDF entry points.  An out-parameter
    appears in what the call hands back; the zeroed [fz_cookie] given to
    [pdf_run_page] and the nil arguments of
    [fz_new_buffer_from_image_as_png] and [fz_buffer_storage] are left
    out. *)
Inductive ccall : Type :=
| fz_new_context_imp (alloc locks : cptr) (max_store : Z) (version : string)
| fz_register_document_handlers (ctx : cptr)
| CString (s : string)
| CBytes (b : list byte)
| free (p : cptr)
| GoString (p : cptr)
| GoStringN (p : cptr) (n : Z)
| pdf_open_document (ctx cfilename : cptr)
| fz_open_memory (ctx data : cptr) (len : Z)
| fz_drop_stream (ctx stream : cptr)
| pdf_open_document_with_stream (ctx stream : cptr)
| pdf_needs_password (ctx pdf : cptr)
| pdf_count_pages (ctx pdf : cptr)
| pdf_count_objects (ctx pdf : cptr)
| pdf_load_page (ctx pdf : cptr) (number : Z)
| fz_drop_page (ctx page : cptr)
| pdf_bound_page (ctx page : cptr)
| fz_scale (sx sy : C_float)
| fz_new_stext_page (ctx : cptr) (bounds : cstruct)
| fz_drop_stext_page (ctx text : cptr)
| fz_new_stext_device (ctx text : cptr) (opts_flags : Z)
| fz_enable_device_hints (ctx device : cptr) (hints : Z)
| fz_drop_device (ctx device : cptr)
| pdf_run_page (ctx page device : cptr) (ctm : cstruct)
| fz_close_device (ctx device : cptr)
| fz_new_buffer_from_stext_page (ctx text : cptr)
| fz_drop_buffer (ctx buf : cptr)
| fz_string_from_buffer (ctx buf : cptr)
| pdf_load_object (ctx pdf : cptr) (num : Z)
| pdf_dict_get (ctx obj key : cptr)
| pdf_name_eq (ctx a b : cptr)
| pdf_new_indirect (ctx pdf : cptr) (num gen : Z)
| pdf_drop_obj (ctx obj : cptr)
| pdf_load_image (ctx pdf ref : cptr)
| fz_drop_image (ctx img : cptr)
| fz_new_buffer_from_image_as_png (ctx img : cptr)
| fz_buffer_storage (ctx buf : cptr)
| pdf_load_outline (ctx pdf : cptr)
| fz_drop_outline (ctx : cptr) (outline : fz_outline)
| pdf_lookup_metadata (ctx pdf key : cptr) (buf : list byte) (size : Z)
| pdf_drop_document (ctx pdf : cptr)
| fz_drop_context (ctx : cptr).

(** What a call hands back: a return value, or the contents it left in the
    variable whose address it was given. *)
Inductive cval : Type :=
| VUnit
| VPtr (p : cptr)
| VInt (n : Z)
| VBytes (b : list byte)
| VStruct (fields : cstruct)
| VOutline (o : fz_outline).

Definition as_ptr (v : cval) : cptr := match v with VPtr p => p | _ => 0 end.
(** A C [int] result converted by [int(...)]. *)
Definition as_int (v : cval) : Z := match v with VInt n => C_int n | _ => 0 end.
(** A C [size_t] result. *)
Definition as_size (v : cval) : Z := match v with VInt n => n mod 2 ^ 64 | _ => 0 end.
Definition as_bytes (v : cval) : list byte := match v with VBytes b => b | _ => [] end.
Definition as_struct (v : cval) : cstruct := match v with VStruct s => s | _ => [] end.
Definition as_outline (v : cval) : fz_outline :=
  match v with VOutline o => o | _ => outline_nil end.

(** ** Errors *)

(** The package's error values, [io.EOF], and any other error of the Go
    standard library by its message.  A nil [error] is [None]. *)
Inductive error : Type :=
| ErrNoSuchFile
| ErrCreateContext
| ErrOpenDocument
| ErrOpenMemory
| ErrPageMissing
| ErrObjMissing
| ErrNotImage
| ErrCreatePixmap
| ErrPixmapSamples
| ErrNeedsPassword
| ErrLoadOutline
| io_EOF
| foreign (msg : string).

(** ** Data model *)

(** [type Document struct]; [mtx] is [true] while the mutex is held. *)
Record Document : Type := mkDocument {
  ctx : cptr;
  pdf : cptr;
  pageTotal : Z;
  objTotal : Z;
  mtx : bool;
}.

(** [Document{}], the zero value. *)
Definition Document_zero : Document :=
  {| ctx := 0; pdf := 0; pageTotal := 0; objTotal := 0; mtx := false |}.

Definition set_ctx (v : cptr) (d : Document) : Document :=
  {| ctx := v; pdf := pdf d; pageTotal := pageTotal d; objTotal := objTotal d; mtx := mtx d |}.
Definition set_pdf (v : cptr) (d : Document) : Document :=
  {| ctx := ctx d; pdf := v; pageTotal := pageTotal d; objTotal := objTotal d; mtx := mtx d |}.
Definition set_pageTotal (v : Z) (d : Document) : Document :=
  {| ctx := ctx d; pdf := pdf d; pageTotal := v; objTotal := objTotal d; mtx := mtx d |}.
Definition set_objTotal (v : Z) (d : Document) : Document :=
  {| ctx := ctx d; pdf := pdf d; pageTotal := pageTotal d; objTotal := v; mtx := mtx d |}.
Definition set_mtx (v : bool) (d : Document) : Document :=
  {| ctx := ctx d; pdf := pdf d; pageTotal := pageTotal d; objTotal := objTotal d; mtx := v |}.

(** A [*Document]: [None] is nil, [Some l] the address of a struct on the
    Go heap. *)
Definition loc := nat.
Definition DocPtr := option loc.

(** [type Outline struct].  [Top] is [float64(outline.y)], an exact
    widening, kept as the C [float] it widens. *)
Record Outline : Type := mkOutline {
  Level : Z;
  Title : string;
  URI : string;
  Page : Z;
  Top : C_float;
}.

(** What can be observed of a run: lock operations on a [Document]'s
    mutex and calls through the boundary with what they returned. *)
Inductive event : Type :=
| EvLock (l : loc)
| EvUnlock (l : loc)
| EvCall (c : ccall) (v : cval).

(** Everything [fitz.go] does not define itself. *)
Record Env : Type := mkEnv {
  (** the state behind the boundary: MuPDF's contexts and the C heap *)
  NS : Type;
  native : ccall → NS → cval * NS;
  (** [filepath.Abs] and [os.Stat] (the error of the latter) *)
  filepath_Abs : string → string * option error;
  os_Stat : string → option error;
  (** [image.Image] and [image.Decode] without the format name *)
  image_Image : Type;
  image_Decode : list byte → option image_Image * option error;
  (** constants of the MuPDF headers *)
  FZ_STORE_UNLIMITED : Z;
  FZ_VERSION : string;
  FZ_NO_CACHE : Z;
  PDF_NAME_Subtype : cptr;
  PDF_NAME_Image : cptr;
}.

(** ** Running Go code against the boundary *)

Section Fitz.
Context {E : Env}.

(** The Go heap of [Document] structs, the state behind the boundary, and
    the events so far, oldest first. *)
Record World : Type := mkWorld {
  docs : gmap loc Document;
  ns : NS E;
  trace : list event;
}.

(** A call returns, panics, waits on a mutex that is held, or ends the
    process in a fatal error of the Go runtime, which runs no deferred
    call. *)
Inductive result (A : Type) : Type :=
| Done (a : A) (w : World)
| Panic (msg : string) (w : World)
| Blocked (w : World)
| Fatal (msg : string) (w : World).
#[global] Arguments Done {A} a w.
#[global] Arguments Panic {A} msg w.
#[global] Arguments Blocked {A} w.
#[global] Arguments Fatal {A} msg w.

Definition M (A : Type) : Type := World → result A.

#[global] Instance M_ret : MRet M := λ A a w, Done a w.
#[global] Instance M_bind : MBind M := λ A B k m w,
  match m w with
  | Done a w' => k a w'
  | Panic msg w' => Panic msg w'
  | Blocked w' => Blocked w'
  | Fatal msg w' => Fatal msg w'
  end.
#[global] Instance M_fmap : FMap M := λ A B g m, a ← m; mret (g a).

(** [defer deferred; body]: the deferred call runs when the body has
    returned or panicked, and the body's results stand; it does not run
    when the body ended the process. *)
Definition defer {A B : Type} (deferred : M B) (body : M A) : M A := λ w,
  match body w with
  | Done a w' =>
      match deferred w' with
      | Done _ w'' => Done a w''
      | Panic msg w'' => Panic msg w''
      | Blocked w'' => Blocked w''
      | Fatal msg w'' => Fatal msg w''
      end
  | Panic msg w' =>
      match deferred w' with
      | Done _ w'' => Panic msg w''
      | Panic msg' w'' => Panic msg' w''
      | Blocked w'' => Blocked w''
      | Fatal msg' w'' => Fatal msg' w''
      end
  | Blocked w' => Blocked w'
  | Fatal msg w' => Fatal msg w'
  end.

Definition log (e : event) : M unit := λ w,
  Done tt {| docs := docs w; ns := ns w; trace := trace w ++ [e] |}.

(** A call through the boundary. *)
Definition call (c : ccall) : M cval := λ w,
  let r := native E c (ns w) in
  Done r.1 {| docs := docs w; ns := r.2; trace := trace w ++ [EvCall c r.1] |}.

Definition nil_dereference : string :=
  "runtime error: invalid memory address or nil pointer dereference".

(** [*f] *)
Definition deref (f : DocPtr) : M Document := λ w,
  match f ≫= λ l, docs w !! l with
  | Some d => Done d w
  | None => Panic nil_dereference w
  end.

(** [f.field] *)
Definition rd {A : Type} (f : DocPtr) (field : Document → A) : M A :=
  field <$> deref f.

(** [f.field = v], as an update of the struct [f] points to *)
Definition wr (f : DocPtr) (upd : Document → Document) : M unit := λ w,
  match f with
  | Some l =>
      match docs w !! l with
      | Some d => Done tt {| docs := <[l := upd d]> (docs w); ns := ns w; trace := trace w |}
      | None => Panic nil_dereference w
      end
  | None => Panic nil_dereference w
  end.

(** [&Document{}] *)
Definition new_Document : M DocPtr := λ w,
  let l := fresh (dom (docs w)) in
  Done (Some l) {| docs := <[l := Document_zero]> (docs w); ns := ns w; trace := trace w |}.

(** [f.mtx.Lock()] and [f.mtx.Unlock()] of [sync.Mutex] *)
Definition Lock (f : DocPtr) : M unit :=
  held ← rd f mtx;
  if held : bool then Blocked
  else wr f (set_mtx true);; log (EvLock (default 0%nat f)).

Definition Unlock (f : DocPtr) : M unit :=
  held ← rd f mtx;
  if held : bool then wr f (set_mtx false);; log (EvUnlock (default 0%nat f))
  else Fatal "fatal error: sync: unlock of unlocked mutex".

(** ** [fitz.go] *)

(** [New] and [NewFromMemory] have the named results [(f, err)]; a bare
    [return] hands back their current values. *)
Definition New (filename : string) : M (DocPtr * option error) :=
  f ← new_Document;
  let '(filename, err) := filepath_Abs E filename in
  if err is Some _ then mret (f, err) else
  if os_Stat E filename is Some _ then mret (f, Some ErrNoSuchFile) else
  c ← call (fz_new_context_imp 0 0 (FZ_STORE_UNLIMITED E) (FZ_VERSION E));
  wr f (set_ctx (as_ptr c));;
  c ← rd f ctx;
  if c =? 0 then mret (f, Some ErrCreateContext) else
  c ← rd f ctx;
  call (fz_register_document_handlers c);;
  cfilename ← as_ptr <$> call (CString filename);
  defer (call (free cfilename)) (
    c ← rd f ctx;
    p ← call (pdf_open_document c cfilename);
    wr f (set_pdf (as_ptr p));;
    p ← rd f pdf;
    let err := if p =? 0 then Some ErrOpenDocument else None in
    c ← rd f ctx; p ← rd f pdf;
    ret ← as_int <$> call (pdf_needs_password c p);
    let v := negb (ret =? 0) in
    let err := if v then Some ErrNeedsPassword else err in
    c ← rd f ctx; p ← rd f pdf;
    n ← as_int <$> call (pdf_count_pages c p);
    wr f (set_pageTotal n);;
    c ← rd f ctx; p ← rd f pdf;
    n ← as_int <$> call (pdf_count_objects c p);
    wr f (set_objTotal n);;
    mret (f, err)).

Definition NewFromMemory (b : list byte) : M (DocPtr * option error) :=
  f ← new_Document;
  c ← call (fz_new_context_imp 0 0 (FZ_STORE_UNLIMITED E) (FZ_VERSION E));
  wr f (set_ctx (as_ptr c));;
  c ← rd f ctx;
  if c =? 0 then mret (f, Some ErrCreateContext) else
  c ← rd f ctx;
  call (fz_register_document_handlers c);;
  data ← as_ptr <$> call (CBytes b);
  c ← rd f ctx;
  stream ← as_ptr <$> call (fz_open_memory c data (Z.of_nat (length b)));
  if stream =? 0 then mret (f, Some ErrOpenMemory) else
  c ← rd f ctx;
  defer (call (fz_drop_stream c stream)) (
    c ← rd f ctx;
    p ← call (pdf_open_document_with_stream c stream);
    wr f (set_pdf (as_ptr p));;
    p ← rd f pdf;
    let err := if p =? 0 then Some ErrOpenDocument else None in
    c ← rd f ctx; p ← rd f pdf;
    ret ← as_int <$> call (pdf_needs_password c p);
    let v := negb (ret =? 0) in
    let err := if v then Some ErrNeedsPassword else err in
    c ← rd f ctx; p ← rd f pdf;
    n ← as_int <$> call (pdf_count_pages c p);
    wr f (set_pageTotal n);;
    c ← rd f ctx; p ← rd f pdf;
    n ← as_int <$> call (pdf_count_objects c p);
    wr f (set_objTotal n);;
    mret (f, err)).

(** An [io.Reader], by what its successive [Read] calls will deliver: some
    bytes, with or without an error; once the list is used up every [Read]
    reports [io.EOF]. *)
Definition Reader := list (list byte * option error).

(** [ioutil.ReadAll] of the Go standard library: reads until an error or
    [io.EOF], and does not report [io.EOF] as an error.  The third
    component is the reader afterwards. *)
Fixpoint ReadAll (r : Reader) : list byte * option error * Reader :=
  match r with
  | [] => ([], None, [])
  | (p, Some io_EOF) :: r' => (p, None, r')
  | (p, Some e) :: r' => (p, Some e, r')
  | (p, None) :: r' => let '(b, e, r'') := ReadAll r' in (p ++ b, e, r'')
  end.

(** The last component of the result is the reader after the call. *)
Definition NewFromReader (r : Reader) : M (DocPtr * option error * Reader) :=
  let '(b, e, r') := ReadAll r in
  if e is Some _ then mret (None, e, r')
  else x ← NewFromMemory b; mret (x, r').

Definition NumPage (f : DocPtr) : M Z := rd f pageTotal.
Definition NumObj (f : DocPtr) : M Z := rd f objTotal.

Definition Text (f : DocPtr) (pageNumber : Z) : M (string * option error) :=
  Lock f;;
  defer (Unlock f) (
    total ← rd f pageTotal;
    if (pageNumber <? 0) || (total <=? pageNumber) then mret (""%string, Some ErrPageMissing)
    else
    c ← rd f ctx; p ← rd f pdf;
    page ← as_ptr <$> call (pdf_load_page c p (C_int pageNumber));
    c ← rd f ctx;
    defer (call (fz_drop_page c page)) (
      c ← rd f ctx;
      bounds ← as_struct <$> call (pdf_bound_page c page);
      ctm ← as_struct <$> call (fz_scale float_1_0 float_1_0);
      c ← rd f ctx;
      text ← as_ptr <$> call (fz_new_stext_page c bounds);
      c ← rd f ctx;
      defer (call (fz_drop_stext_page c text)) (
        let opts_flags := 0 in
        c ← rd f ctx;
        device ← as_ptr <$> call (fz_new_stext_device c text opts_flags);
        c ← rd f ctx;
        call (fz_enable_device_hints c device (FZ_NO_CACHE E));;
        c ← rd f ctx;
        defer (call (fz_drop_device c device)) (
          c ← rd f ctx;
          call (pdf_run_page c page device ctm);;
          c ← rd f ctx;
          call (fz_close_device c device);;
          c ← rd f ctx;
          buf ← as_ptr <$> call (fz_new_buffer_from_stext_page c text);
          c ← rd f ctx;
          defer (call (fz_drop_buffer c buf)) (
            c ← rd f ctx;
            s ← as_ptr <$> call (fz_string_from_buffer c buf);
            str ← as_bytes <$> call (GoString s);
            mret (string_of_bytes str, None)))))).

Definition isImage (f : DocPtr) (obj : cptr) : M bool :=
  c ← rd f ctx;
  objType ← as_ptr <$> call (pdf_dict_get c obj (PDF_NAME_Subtype E));
  c ← rd f ctx;
  r ← as_int <$> call (pdf_name_eq c objType (PDF_NAME_Image E));
  mret (C_int 1 =? r).

(** [C.GoStringN(p, n)] copies [n] bytes at [p] into a Go string.  The
    runtime allocates the string first: a negative [n] is an allocation it
    cannot satisfy, and the process ends in a fatal error before any byte
    is read. *)
Definition out_of_memory : string := "fatal error: runtime: out of memory".

Definition C_GoStringN (p : cptr) (n : Z) : M (list byte) :=
  if n <? 0 then Fatal out_of_memory
  else as_bytes <$> call (GoStringN p n).

Definition saveImage (f : DocPtr) (objNumber : Z) : M (list byte) :=
  c ← rd f ctx; p ← rd f pdf;
  ref ← as_ptr <$> call (pdf_new_indirect c p (C_int objNumber) (C_int 0));
  c ← rd f ctx;
  defer (call (pdf_drop_obj c ref)) (
    c ← rd f ctx; p ← rd f pdf;
    fzImg ← as_ptr <$> call (pdf_load_image c p ref);
    c ← rd f ctx;
    defer (call (fz_drop_image c fzImg)) (
      c ← rd f ctx;
      buf ← as_ptr <$> call (fz_new_buffer_from_image_as_png c fzImg);
      c ← rd f ctx;
      defer (call (fz_drop_buffer c buf)) (
        c ← rd f ctx;
        size ← as_size <$> call (fz_buffer_storage c buf);
        c ← rd f ctx;
        s ← as_ptr <$> call (fz_string_from_buffer c buf);
        str ← C_GoStringN s (C_int size);
        mret str))).

Definition ImageBytes (f : DocPtr) (objNumber : Z) : M (list byte * option error) :=
  Lock f;;
  defer (Unlock f) (
    total ← rd f objTotal;
    if (objNumber <=? 0) || (total <=? objNumber) then mret ([], Some ErrObjMissing)
    else
    c ← rd f ctx; p ← rd f pdf;
    obj ← as_ptr <$> call (pdf_load_object c p (C_int objNumber));
    is_img ← isImage f obj;
    if is_img : bool then b ← saveImage f objNumber; mret (b, None)
    else mret ([], Some ErrNotImage)).

Definition Image (f : DocPtr) (objNumber : Z)
  : M (option (image_Image E) * option error) :=
  '(b, err) ← ImageBytes f objNumber;
  if err is Some _ then mret (None, err)
  else mret (image_Decode E b).

(** The closure [walk] of [ToC]; the slice [data] it appends to is passed
    in and handed back. *)
Fixpoint walk (outline : fz_outline) (level : Z) (data : list Outline) : list Outline :=
  match outline with
  | outline_nil => data
  | outline_node title uri page y down next =>
      let res := {| Level := level; Title := title; URI := uri;
                    Page := C_int page; Top := y |} in
      let data := data ++ [res] in
      let data :=
        match down with
        | outline_nil => data
        | outline_node _ _ _ _ _ _ => walk down (int64 (level + 1)) data
        end in
      walk next level data
  end.

Definition ToC (f : DocPtr) : M (list Outline * option error) :=
  let data := [] in
  c ← rd f ctx; p ← rd f pdf;
  outline ← as_outline <$> call (pdf_load_outline c p);
  if outline is outline_nil then mret ([], Some ErrLoadOutline) else
  c ← rd f ctx;
  defer (call (fz_drop_outline c outline)) (
    mret (walk outline 1 data, None)).

(** [bytes.TrimRight(s, cutset)] for a cutset of ASCII bytes. *)
Fixpoint TrimRight (s : list byte) (cutset : list byte) : list byte :=
  match s with
  | [] => []
  | x :: s' =>
      match TrimRight s' cutset with
      | [] => if existsb (Byte.eqb x) cutset then [] else [x]
      | t => x :: t
      end
  end.

(** What a C function leaves in a Go buffer it was given the address and
    the size of: the bytes it wrote, over the front of the buffer. *)
Definition written_over (buf written : list byte) : list byte :=
  take (length buf) (written ++ drop (length written) buf).

(** The closure [lookup] of [Metadata]. *)
Definition Metadata_lookup (f : DocPtr) (key : string) : M string :=
  ckey ← as_ptr <$> call (CString key);
  defer (call (free ckey)) (
    let buf := replicate 256 x00 in
    c ← rd f ctx; p ← rd f pdf;
    r ← as_bytes <$> call (pdf_lookup_metadata c p ckey buf (C_int (Z.of_nat (length buf))));
    let buf := written_over buf r in
    let buf := TrimRight buf [x00] in
    mret (string_of_bytes buf)).

Definition Metadata (f : DocPtr) : M (gmap string string) :=
  let data : gmap string string := ∅ in
  let lookup := Metadata_lookup f in
  v ← lookup "format"%string;       let data := <["format"%string := v]> data in
  v ← lookup "encryption"%string;   let data := <["encryption"%string := v]> data in
  v ← lookup "info:Title"%string;   let data := <["title"%string := v]> data in
  v ← lookup "info:Author"%string;  let data := <["author"%string := v]> data in
  v ← lookup "info:Subject"%string; let data := <["subject"%string := v]> data in
  v ← lookup "info:Keywords"%string; let data := <["keywords"%string := v]> data in
  v ← lookup "info:Creator"%string; let data := <["creator"%string := v]> data in
  v ← lookup "info:Producer"%string; let data := <["producer"%string := v]> data in
  v ← lookup "info:CreationDate"%string; let data := <["creationDate"%string := v]> data in
  v ← lookup "info:modDate"%string; let data := <["modDate"%string := v]> data in
  mret data.

Definition Close (f : DocPtr) : M (option error) :=
  c ← rd f ctx; p ← rd f pdf;
  call (pdf_drop_document c p);;
  c ← rd f ctx;
  call (fz_drop_context c);;
  mret None.

(** *** Observing a run *)

(** The world a run ends in, and the value it returns if it returns. *)
Definition world_of {A : Type} (r : result A) : World :=
  match r with Done _ w' | Panic _ w' | Blocked w' | Fatal _ w' => w' end.
Definition value_of {A : Type} (r : result A) : option A :=
  match r with Done a _ => Some a | Panic _ _ | Blocked _ | Fatal _ _ => None end.

(** The message of the fatal error a run ended in, if it did. *)
Definition fatal_of {A : Type} (r : result A) : option string :=
  match r with Fatal msg _ => Some msg | Done _ _ | Panic _ _ | Blocked _ => None end.

(** The events between two worlds of one run. *)
Definition emitted (w w' : World) : list event := drop (length (trace w)) (trace w').

Definition is_lock_event (e : event) : bool :=
  match e with EvLock _ | EvUnlock _ => true | EvCall _ _ => false end.
Definition is_call_event (e : event) : bool := negb (is_lock_event e).

Definition calls_only (evs : list event) : Prop :=
  Forall (λ e, is_call_event e = true) evs.

(** The call releases native state of the document. *)
Definition is_release (e : event) : bool :=
  match e with
  | EvCall (pdf_drop_document _ _) _ | EvCall (fz_drop_context _) _ => true
  | _ => false
  end.

(** No event of the run releases the document. *)
Definition keeps_open (evs : list event) : Prop :=
  Forall (λ e, is_release e = false) evs.

(** The call is made on the context [c]. *)
Definition call_on (c : cptr) (e : event) : Prop :=
  match e with
  | EvCall (pdf_load_page c' _ _) _ | EvCall (pdf_load_object c' _ _) _
  | EvCall (pdf_load_outline c' _) _ | EvCall (pdf_lookup_metadata c' _ _ _ _) _ => c' = c
  | _ => False
  end.

(** An operation with an error result is rejected by a guard when it
    reports an error without a single call through the boundary. *)
Definition rejected {A : Type} (m : M (A * option error)) (w : World) : Prop :=
  ∃ a e w', m w = Done (a, Some e) w' ∧ Forall (λ ev, is_call_event ev = false) (emitted w w').

(** [m] returns from [w], and the result and the world it returns in
    satisfy [Q]. *)
Definition wp {A : Type} (m : M A) (w : World) (Q : A → World → Prop) : Prop :=
  match m w with
  | Done a w' => Q a w'
  | Panic _ _ | Blocked _ | Fatal _ _ => False
  end.

(** [m] returns from [w] with [Q], or ends the process there with [R]. *)
Definition wpf {A : Type} (m : M A) (w : World)
    (Q : A → World → Prop) (R : string → World → Prop) : Prop :=
  match m w with
  | Done a w' => Q a w'
  | Fatal msg w' => R msg w'
  | Panic _ _ | Blocked _ => False
  end.

(** *** The calls of [ImageBytes] *)

(** The test of [isImage] on object [k] of the document [d], with what the
    three calls returned. *)
Definition image_test_events (d : Document) (k : Z) (vo vt vr : cval) : list event :=
  [EvCall (pdf_load_object (ctx d) (pdf d) (C_int k)) vo;
   EvCall (pdf_dict_get (ctx d) (as_ptr vo) (PDF_NAME_Subtype E)) vt;
   EvCall (pdf_name_eq (ctx d) (as_ptr vt) (PDF_NAME_Image E)) vr].

(** The calls of [saveImage] up to the copy into Go memory: the reference
    to object [k] with generation 0, the image loaded from it, the PNG
    buffer of that image, its size and its bytes. *)
Definition image_encode_events (d : Document) (k : Z)
    (vref vimg vbuf vsize vstr : cval) : list event :=
  [EvCall (pdf_new_indirect (ctx d) (pdf d) (C_int k) (C_int 0)) vref;
   EvCall (pdf_load_image (ctx d) (pdf d) (as_ptr vref)) vimg;
   EvCall (fz_new_buffer_from_image_as_png (ctx d) (as_ptr vimg)) vbuf;
   EvCall (fz_buffer_storage (ctx d) (as_ptr vbuf)) vsize;
   EvCall (fz_string_from_buffer (ctx d) (as_ptr vbuf)) vstr].

(** The deferred drops of [saveImage]: buffer, image, reference. *)
Definition image_drop_events (d : Document) (vref vimg vbuf u1 u2 u3 : cval) : list event :=
  [EvCall (fz_drop_buffer (ctx d) (as_ptr vbuf)) u1;
   EvCall (fz_drop_image (ctx d) (as_ptr vimg)) u2;
   EvCall (pdf_drop_obj (ctx d) (as_ptr vref)) u3].

(** The four ways [ImageBytes k] goes on the document [d] behind [l],
    started in [w] with the mutex free. *)
Inductive ImageBytes_outcome (l : loc) (d : Document) (k : Z) (w : World)
  : result (list byte * option error) → Prop :=
| object_missing w' :
    k <= 0 ∨ objTotal d <= k →
    docs w' = docs w →
    trace w' = trace w ++ [EvLock l; EvUnlock l] →
    ImageBytes_outcome l d k w (Done ([], Some ErrObjMissing) w')
| object_not_image w' vo vt vr :
    1 <= k < objTotal d →
    as_int vr ≠ 1 →
    docs w' = docs w →
    trace w' = trace w ++ EvLock l :: image_test_events d k vo vt vr ++ [EvUnlock l] →
    ImageBytes_outcome l d k w (Done ([], Some ErrNotImage) w')
| object_image w' vo vt vr vref vimg vbuf vsize vstr vb u1 u2 u3 :
    1 <= k < objTotal d →
    as_int vr = 1 →
    0 <= C_int (as_size vsize) →
    docs w' = docs w →
    trace w' = trace w ++ EvLock l :: image_test_events d k vo vt vr
                 ++ image_encode_events d k vref vimg vbuf vsize vstr
                 ++ EvCall (GoStringN (as_ptr vstr) (C_int (as_size vsize))) vb
                 :: image_drop_events d vref vimg vbuf u1 u2 u3 ++ [EvUnlock l] →
    ImageBytes_outcome l d k w (Done (as_bytes vb, None) w')
| object_too_large w' vo vt vr vref vimg vbuf vsize vstr :
    1 <= k < objTotal d →
    as_int vr = 1 →
    C_int (as_size vsize) < 0 →
    docs w' = <[l := set_mtx true d]> (docs w) →
    trace w' = trace w ++ EvLock l :: image_test_events d k vo vt vr
                 ++ image_encode_events d k vref vimg vbuf vsize vstr →
    ImageBytes_outcome l d k w (Fatal out_of_memory w').

(** *** The outline as the specification words it *)

(** Depth-first, pre-order: a node at [level], its children one level
    down, then its later siblings at [level]. *)
Fixpoint flatten (outline : fz_outline) (level : Z) : list Outline :=
  match outline with
  | outline_nil => []
  | outline_node title uri page y down next =>
      {| Level := level; Title := title; URI := uri; Page := C_int page; Top := y |}
        :: flatten down (level + 1) ++ flatten next level
  end.

(** The number of levels of a forest. *)
Fixpoint outline_depth (outline : fz_outline) : Z :=
  match outline with
  | outline_nil => 0
  | outline_node _ _ _ _ down next => Z.max (1 + outline_depth down) (outline_depth next)
  end.

(** Every level is at least 1 and at most one more than the level before
    it, [prev] being the level before the first. *)
Fixpoint level_steps (prev : Z) (levels : list Z) : Prop :=
  match levels with
  | [] => True
  | l :: levels' => 1 <= l ∧ l <= prev + 1 ∧ level_steps l levels'
  end.

Definition levels_ok (data : list Outline) : Prop :=
  match Level <$> data with
  | [] => True
  | l :: levels => l = 1 ∧ level_steps l levels
  end.

(** *** Metadata *)

(** The keys of the result with the names looked up for them. *)
Definition metadata_keys : list (string * string) :=
  [("format", "format"); ("encryption", "encryption"); ("title", "info:Title");
   ("author", "info:Author"); ("subject", "info:Subject");
   ("keywords", "info:Keywords"); ("creator", "info:Creator");
   ("producer", "info:Producer"); ("creationDate", "info:CreationDate");
   ("modDate", "info:modDate")]%string.

(** The value stored for what a lookup wrote into the zeroed buffer. *)
Definition metadata_value (written : list byte) : string :=
  string_of_bytes (TrimRight (written_over (replicate 256 x00) written) [x00]).

(** The three calls of one lookup of [name] on the document [d], and the
    value [v] it yields. *)
Definition lookup_events (d : Document) (name : string) (v : string) (evs : list event) : Prop :=
  ∃ ckey r u,
    evs = [EvCall (CString name) ckey;
           EvCall (pdf_lookup_metadata (ctx d) (pdf d) (as_ptr ckey) (replicate 256 x00) 256) r;
           EvCall (free (as_ptr ckey)) u]
    ∧ v = metadata_value (as_bytes r).

(** *** Closing more than once *)

(** [n] calls of [Close] in a row, with their results. *)
Fixpoint Close_times (n : nat) (f : DocPtr) : M (list (option error)) :=
  match n with
  | O => mret []
  | S n' => e ← Close f; es ← Close_times n' f; mret (e :: es)
  end.

(** *** Reading a stream *)

Definition result_map {A B : Type} (g : A → B) (r : result A) : result B :=
  match r with
  | Done a w => Done (g a) w
  | Panic msg w => Panic msg w
  | Blocked w => Blocked w
  | Fatal msg w => Fatal msg w
  end.

(** The reader delivers [chunks] without an error and then ends in
    [last]: an error together with the bytes [p], or nothing more. *)
Definition delivers (r : Reader) (chunks : list (list byte))
    (last : option (list byte * error)) (rest : Reader) : Prop :=
  match last with
  | Some (p, e) => r = ((λ c, (c, None)) <$> chunks) ++ (p, Some e) :: rest
  | None => r = (λ c, (c, None)) <$> chunks ∧ rest = []
  end.

(** *** Sequential callers *)

(** One method call on a handle that is open, as a caller makes it between
    opening and closing. *)
Inductive method : Type :=
| CallNumPage
| CallNumObj
| CallText (pageNumber : Z)
| CallImageBytes (objNumber : Z)
| CallImage (objNumber : Z)
| CallToC
| CallMetadata.

Definition call_method (f : DocPtr) (m : method) : M unit :=
  match m with
  | CallNumPage => _ ← NumPage f; mret tt
  | CallNumObj => _ ← NumObj f; mret tt
  | CallText i => _ ← Text f i; mret tt
  | CallImageBytes k => _ ← ImageBytes f k; mret tt
  | CallImage k => _ ← Image f k; mret tt
  | CallToC => _ ← ToC f; mret tt
  | CallMetadata => _ ← Metadata f; mret tt
  end.

(** The calls of a caller, one after the other. *)
Fixpoint call_methods (f : DocPtr) (ms : list method) : M unit :=
  match ms with
  | [] => mret tt
  | m :: ms' => call_method f m;; call_methods f ms'
  end.

(** Whether the mutex of [l] is held after the events [evs], starting from
    [held]; [None] when a lock is taken while held, an unlock happens while
    free, or another mutex is touched. *)
Fixpoint lock_state (l : loc) (held : bool) (evs : list event) : option bool :=
  match evs with
  | [] => Some held
  | EvLock l' :: evs' =>
      if held || negb (l' =? l)%nat then None else lock_state l true evs'
  | EvUnlock l' :: evs' =>
      if held && (l' =? l)%nat then lock_state l false evs' else None
  | EvCall _ _ :: evs' => lock_state l held evs'
  end.

(** The calls of a run, without what they returned. *)
Definition calls_of (evs : list event) : list ccall :=
  omap (λ e, if e is EvCall c _ then Some c else None) evs.

(** *** Outline nodes *)

(** The nodes of a forest in pre-order, by the fields [ToC] copies. *)
Fixpoint preorder (outline : fz_outline) : list (string * string * Z * C_float) :=
  match outline with
  | outline_nil => []
  | outline_node title uri page y down next =>
      (title, uri, C_int page, y) :: preorder down ++ preorder next
  end.

Definition entry_fields (e : Outline) : string * string * Z * C_float :=
  (Title e, URI e, Page e, Top e).

(** *** Opening runs *)

(** The error of an opening run that got its context, from what
    [pdf_open_document] and [pdf_needs_password] returned. *)
Definition open_error (vp vn : cval) : option error :=
  if as_int vn =? 0 then (if as_ptr vp =? 0 then Some ErrOpenDocument else None)
  else Some ErrNeedsPassword.

Definition opened_document (vc vp vpages vobjs : cval) : Document :=
  {| ctx := as_ptr vc; pdf := as_ptr vp; pageTotal := as_int vpages;
     objTotal := as_int vobjs; mtx := false |}.

End Fitz.

(** ** A small concrete boundary

    A stand-in for MuPDF with one document of two pages and four objects
    (numbers 0 to 3), of which object 2 is an image, an outline of two
    chapters and two metadata fields.  Its state is the list of C strings
    allocated so far, which resolves the key pointer of a metadata lookup.
    It instantiates the theorems at concrete inputs. *)
Module Toy.

Definition outline : fz_outline :=
  outline_node "Chapter 1" "#page=1" 0 0
    (outline_node "1.1" "#page=1" 0 100
       (outline_node "1.1.1" "#page=2" 1 0 outline_nil outline_nil)
       (outline_node "1.2" "#page=2" 1 200 outline_nil outline_nil))
    (outline_node "Chapter 2" "http://example.org" (-1) 0 outline_nil outline_nil).

(** A PNG file of one pixel, 70 bytes. *)
Definition png : list byte :=
  [x89; x50; x4e; x47; x0d; x0a; x1a; x0a; x00; x00; x00; x0d; x49; x48; x44; x52;
   x00; x00; x00; x01; x00; x00; x00; x01; x08; x06; x00; x00; x00; x1f; x15; xc4;
   x89; x00; x00; x00; x0d; x49; x44; x41; x54; x78; xda; x63; x64; x60; xf8; x5f;
   x0f; x00; x02; x87; x01; x80; xeb; x47; xba; x92; x00; x00; x00; x00; x49; x45;
   x4e; x44; xae; x42; x60; x82].

(** A decoded image, by its width and height. *)
Definition image : Type := Z * Z.

(** The decoder knows this one file and rejects every other input. *)
Definition decode (b : list byte) : option image * option error :=
  if (length b =? length png)%nat && forallb (λ xy, Byte.eqb xy.1 xy.2) (zip b png)
  then (Some (1, 1), None)
  else (None, Some (foreign "image: unknown format")).

Definition name_Subtype : cptr := 70.
Definition name_Image : cptr := 71.

Definition metadata (key : string) : list byte :=
  if decide (key = "format") then bytes_of_string "PDF 1.7"
  else if decide (key = "info:Title") then bytes_of_string "Toy"
  else [].

Definition native (encrypted : bool) (c : ccall) (strings : list string)
  : cval * list string :=
  match c with
  | fz_new_context_imp _ _ _ _ => (VPtr 1000, strings)
  | CString s => (VPtr (2000 + Z.of_nat (length strings)), strings ++ [s])
  | CBytes _ => (VPtr 2900, strings)
  | GoString _ => (VBytes (bytes_of_string "Hello"), strings)
  | GoStringN _ n => (VBytes (take (Z.to_nat n) png), strings)
  | pdf_open_document _ _ | pdf_open_document_with_stream _ _ => (VPtr 3000, strings)
  | fz_open_memory _ _ _ => (VPtr 2950, strings)
  | pdf_needs_password _ _ => (VInt (if encrypted then 1 else 0), strings)
  | pdf_count_pages _ _ => (VInt 2, strings)
  | pdf_count_objects _ _ => (VInt 4, strings)
  | pdf_load_page _ _ i => (VPtr (4000 + i), strings)
  | pdf_bound_page _ _ => (VStruct [0; 0; 0x44190000; 0x44460000], strings)
  | fz_scale sx sy => (VStruct [sx; 0; 0; sy; 0; 0], strings)
  | fz_new_stext_page _ _ => (VPtr 5000, strings)
  | fz_new_stext_device _ _ _ => (VPtr 5100, strings)
  | fz_new_buffer_from_stext_page _ _ => (VPtr 5200, strings)
  | fz_string_from_buffer _ buf => (VPtr (buf + 16), strings)
  | pdf_load_object _ _ num => (VPtr (6000 + num), strings)
  | pdf_dict_get _ obj _ => (VPtr (if obj =? 6002 then name_Image else name_Subtype), strings)
  | pdf_name_eq _ a b => (VInt (if a =? b then 1 else 0), strings)
  | pdf_new_indirect _ _ num _ => (VPtr (6100 + num), strings)
  | pdf_load_image _ _ _ => (VPtr 6200, strings)
  | fz_new_buffer_from_image_as_png _ _ => (VPtr 6300, strings)
  | fz_buffer_storage _ _ => (VInt (Z.of_nat (length png)), strings)
  | pdf_load_outline _ _ => (VOutline outline, strings)
  | pdf_lookup_metadata _ _ key _ _ =>
      (VBytes (metadata (default "" (strings !! Z.to_nat (key - 2000)))), strings)
  | _ => (VUnit, strings)
  end.

Definition os_Stat (s : string) : option error :=
  if decide (s = "/missing.pdf")
  then Some (foreign "stat /missing.pdf: no such file or directory")
  else None.

Definition env (encrypted : bool) : Env :=
  mkEnv (list string) (native encrypted)
    (λ s, (String.append "/" s, None)) os_Stat
    image decode
    0 "1.13.0" 2 name_Subtype name_Image.

(** The same boundary with one difference: the PNG buffer of the image is
    reported to hold [2^31] bytes. *)
Definition native_huge (c : ccall) (strings : list string) : cval * list string :=
  match c with
  | fz_buffer_storage _ _ => (VInt (2 ^ 31), strings)
  | _ => native false c strings
  end.

Definition env_huge : Env :=
  mkEnv (list string) native_huge
    (λ s, (String.append "/" s, None)) os_Stat
    image decode
    0 "1.13.0" 2 name_Subtype name_Image.

Definition opened_huge : @World env_huge :=
  world_of (New "toy.pdf" (@mkWorld env_huge ∅ [] [])).

(** The world before anything ran. *)
Definition w0 (encrypted : bool) : @World (env encrypted) :=
  @mkWorld (env encrypted) ∅ [] [].

(** The world and handle after [New "toy.pdf"], and the worlds after a
    following [Text 0] and after a [Close] following that. *)
Definition opened (encrypted : bool) : @World (env encrypted) :=
  world_of (New "toy.pdf" (w0 encrypted)).
Definition handle : DocPtr := Some 0%nat.
(** The struct behind [handle] after [New]. *)
Definition document : Document :=
  {| ctx := 1000; pdf := 3000; pageTotal := 2; objTotal := 4; mtx := false |}.
Definition read : @World (env false) := world_of (Text handle 0 (opened false)).
Definition closed : @World (env false) := world_of (Close handle read).

End Toy.

(** * Properties *)

(** ** The content sniffer *)

Section ContentType.

Lemma ix_true b i x : ix b i x = true ↔ b !! i = Some x.
Proof.
  unfold ix. destruct (b !! i) as [y|]; [|split; discriminate].
  split.
  - intros H. f_equal. now apply Byte.byte_dec_bl.
  - intros [= ->]. now apply Byte.byte_dec_lb.
Qed.

Lemma matches_at_true pat : ∀ b i,
  matches_at b i pat = true ↔ take (length pat) (drop i b) = pat.
Proof.
  induction pat as [|x pat IH]; intros b i; cbn [matches_at length].
  - now rewrite take_0.
  - rewrite andb_true_iff, ix_true, IH. split.
    + intros [Hx Hrest].
      rewrite (drop_S b x i Hx). cbn. now rewrite Hrest.
    + intros H.
      destruct (b !! i) as [y|] eqn:Hy.
      * rewrite (drop_S b y i Hy) in H. cbn in H.
        injection H as -> H. now split.
      * apply lookup_ge_None_1 in Hy. rewrite drop_ge in H by lia. discriminate.
Qed.

Lemma contentType_unfold b :
  contentType b =
    if (3 <? length b)%nat && matches_at b 0 pdf_magic then "application/pdf"
    else if (57 <? length b)%nat && matches_at b 0 zip_magic && matches_at b 30 epub_marker
      then "application/epub+zip"
    else "".
Proof.
  unfold contentType.
  let p := eval vm_compute in pdf_magic in change pdf_magic with p.
  let z := eval vm_compute in zip_magic in change zip_magic with z.
  let e := eval vm_compute in epub_marker in change epub_marker with e.
  cbn [matches_at]. rewrite ?andb_true_r, <- ?andb_assoc. reflexivity.
Qed.

Lemma pdf_test b :
  (3 <? length b)%nat && matches_at b 0 pdf_magic = true ↔ is_pdf b.
Proof.
  unfold is_pdf. rewrite andb_true_iff, Nat.ltb_lt, matches_at_true, drop_0.
  change (length pdf_magic) with 4%nat. intuition lia.
Qed.

Lemma epub_test b :
  (57 <? length b)%nat && matches_at b 0 zip_magic && matches_at b 30 epub_marker = true
  ↔ is_epub b.
Proof.
  unfold is_epub.
  rewrite !andb_true_iff, Nat.ltb_lt, !matches_at_true, drop_0.
  change (length zip_magic) with 4%nat. change (length epub_marker) with 28%nat.
  intuition lia.
Qed.

(** The two signatures exclude each other: the first byte differs. *)
Lemma pdf_epub_disjoint b : is_pdf b → is_epub b → False.
Proof.
  intros [_ Hp] (_ & Hz & _). rewrite Hp in Hz. discriminate.
Qed.

End ContentType.

(** ** Reasoning about runs *)

Section Runs.
Context {E : Env}.
Implicit Types (w : @World E) (l : loc) (d : Document).
Implicit Types (hp : gmap loc Document) (n : NS E) (t : list event).

Lemma wp_elim {A} (m : M A) w Q :
  wp m w Q → ∃ a w', m w = Done a w' ∧ Q a w'.
Proof. unfold wp. destruct (m w); [eauto | tauto | tauto | tauto]. Qed.

Lemma wp_intro {A} (m : M A) w a w' (Q : A → World → Prop) :
  m w = Done a w' → Q a w' → wp m w Q.
Proof. unfold wp. now intros ->. Qed.

Lemma wp_mono {A} (m : M A) w (Q Q' : A → World → Prop) :
  wp m w Q → (∀ a w', Q a w' → Q' a w') → wp m w Q'.
Proof. unfold wp. destruct (m w); auto. Qed.

Lemma wp_ret {A} (a : A) w Q : Q a w → wp (mret a) w Q.
Proof. auto. Qed.

Lemma wp_bind {A B} (m : M A) (k : A → M B) w Q :
  wp m w (λ a w', wp (k a) w' Q) → wp (m ≫= k) w Q.
Proof. unfold wp, mbind, M_bind. destruct (m w); auto. Qed.

Lemma wp_fmap {A B} (g : A → B) (m : M A) w Q :
  wp m w (λ a w', Q (g a) w') → wp (g <$> m) w Q.
Proof. unfold wp, fmap, M_fmap, mbind, M_bind, mret, M_ret. destruct (m w); auto. Qed.

Lemma wp_defer {A B} (deferred : M B) (body : M A) w Q :
  wp body w (λ a w', wp deferred w' (λ _ w'', Q a w'')) → wp (defer deferred body) w Q.
Proof.
  unfold wp, defer. destruct (body w) as [a w'| | |]; try tauto.
  destruct (deferred w'); tauto.
Qed.

Lemma wp_call (c : ccall) hp n t Q :
  (∀ v n', native E c n = (v, n') → Q v (mkWorld hp n' (t ++ [EvCall c v]))) →
  wp (call c) (mkWorld hp n t) Q.
Proof. intros H. apply H. cbn. now destruct (native E c n). Qed.

Lemma wp_rd {A} (field : Document → A) l d hp n t Q :
  hp !! l = Some d → Q (field d) (mkWorld hp n t) → wp (rd (Some l) field) (mkWorld hp n t) Q.
Proof.
  intros Hl HQ. unfold wp, rd, fmap, M_fmap, mbind, M_bind, deref. cbn. now rewrite Hl.
Qed.

Lemma wp_wr (upd : Document → Document) l d hp n t Q :
  hp !! l = Some d → Q tt (mkWorld (<[l := upd d]> hp) n t) →
  wp (wr (Some l) upd) (mkWorld hp n t) Q.
Proof. intros Hl HQ. unfold wp, wr. cbn. now rewrite Hl. Qed.

Lemma wp_new_Document hp n t Q :
  (∀ l, hp !! l = None → Q (Some l) (mkWorld (<[l := Document_zero]> hp) n t)) →
  wp new_Document (mkWorld hp n t) Q.
Proof.
  intros H. apply H. apply not_elem_of_dom, is_fresh.
Qed.

Lemma wp_Lock l d hp n t Q :
  hp !! l = Some d → mtx d = false →
  Q tt (mkWorld (<[l := set_mtx true d]> hp) n (t ++ [EvLock l])) →
  wp (Lock (Some l)) (mkWorld hp n t) Q.
Proof.
  intros Hl Hm HQ. unfold Lock. apply wp_bind. eapply wp_rd; [done|]. rewrite Hm.
  apply wp_bind. eapply wp_wr; [done|]. exact HQ.
Qed.

Lemma wp_Unlock l d hp n t Q :
  hp !! l = Some d → mtx d = true →
  Q tt (mkWorld (<[l := set_mtx false d]> hp) n (t ++ [EvUnlock l])) →
  wp (Unlock (Some l)) (mkWorld hp n t) Q.
Proof.
  intros Hl Hm HQ. unfold Unlock. apply wp_bind. eapply wp_rd; [done|]. rewrite Hm.
  apply wp_bind. eapply wp_wr; [done|]. exact HQ.
Qed.

Lemma wpf_of_wp {A} (m : M A) w Q R : wp m w Q → wpf m w Q R.
Proof. unfold wp, wpf. destruct (m w); tauto. Qed.

Lemma wpf_elim {A} (m : M A) w Q R :
  wpf m w Q R →
  (∃ a w', m w = Done a w' ∧ Q a w') ∨ (∃ msg w', m w = Fatal msg w' ∧ R msg w').
Proof. unfold wpf. destruct (m w); [eauto | tauto | tauto | eauto]. Qed.

Lemma wpf_bind {A B} (m : M A) (k : A → M B) w Q R :
  wpf m w (λ a w', wpf (k a) w' Q R) R → wpf (m ≫= k) w Q R.
Proof. unfold wpf, mbind, M_bind. destruct (m w); auto. Qed.

Lemma wpf_defer {A B} (deferred : M B) (body : M A) w Q R :
  wpf body w (λ a w', wpf deferred w' (λ _ w'', Q a w'') R) R →
  wpf (defer deferred body) w Q R.
Proof.
  unfold wpf, defer. destruct (body w) as [a w'| | |]; try tauto.
  destruct (deferred w'); tauto.
Qed.

Lemma wpf_GoStringN (p : cptr) (size : Z) hp n t Q (R : string → World → Prop) :
  (size < 0 → R out_of_memory (mkWorld hp n t)) →
  (0 <= size → ∀ v n', native E (GoStringN p size) n = (v, n') →
     Q (as_bytes v) (mkWorld hp n' (t ++ [EvCall (GoStringN p size) v]))) →
  wpf (C_GoStringN p size) (mkWorld hp n t) Q R.
Proof.
  intros Hneg Hok. unfold C_GoStringN. destruct (Z.ltb_spec size 0).
  - apply Hneg. lia.
  - apply wpf_of_wp, wp_fmap, wp_call. intros v n' Hc. now apply Hok.
Qed.

(** A held mutex stops [Lock]. *)
Lemma Lock_held l d w :
  docs w !! l = Some d → mtx d = true → Lock (Some l) w = Blocked w.
Proof.
  intros Hl Hm. unfold Lock, rd, fmap, M_fmap, mbind, M_bind, deref. cbn.
  now rewrite Hl; cbn; rewrite Hm.
Qed.

Lemma value_of_Done {A} (r : @result E A) (a : A) :
  value_of r = Some a → r = Done a (world_of r).
Proof. destruct r; cbn; congruence. Qed.

Lemma rejected_value {A} (m : M (A * option error)) w :
  rejected m w → ∃ e, snd <$> value_of (m w) = Some (Some e).
Proof. intros (a & e & w' & -> & _). now exists e. Qed.

Lemma bind_Done {A B} (m : M A) (k : A → M B) w a w' :
  m w = Done a w' → (m ≫= k) w = k a w'.
Proof. unfold mbind, M_bind. now intros ->. Qed.

Lemma bind_Panic {A B} (m : M A) (k : A → M B) w msg w' :
  m w = Panic msg w' → (m ≫= k) w = Panic msg w'.
Proof. unfold mbind, M_bind. now intros ->. Qed.

Lemma emitted_app w w' evs : trace w' = trace w ++ evs → emitted w w' = evs.
Proof. intros H. unfold emitted. rewrite H. now rewrite drop_app_length. Qed.

(** Locking and unlocking gives the struct back as it was. *)
Lemma relock_heap l d (hp : gmap loc Document) :
  hp !! l = Some d → mtx d = false →
  <[l := set_mtx false (set_mtx true d)]> (<[l := set_mtx true d]> hp) = hp.
Proof.
  intros Hl Hm. rewrite insert_insert_eq. apply insert_id.
  rewrite Hl. f_equal. destruct d; cbn in *. now subst.
Qed.

End Runs.

(** One step of a run: the rule for the head of the computation. *)
Ltac heap_lookup :=
  cbn [docs ctx pdf pageTotal objTotal mtx set_ctx set_pdf set_pageTotal set_objTotal set_mtx];
  first [ eassumption | apply lookup_insert_eq | reflexivity ].

Ltac wp_step :=
  cbv beta;
  lazymatch goal with
  | |- wp (mret _) _ _ => apply wp_ret
  | |- wp (mbind _ _) _ _ => apply wp_bind
  | |- wp (fmap _ _) _ _ => apply wp_fmap
  | |- wp (defer _ _) _ _ => apply wp_defer
  | |- wp (call _) _ _ => apply wp_call; intros ? ? ?
  | |- wp (rd _ _) _ _ => eapply wp_rd; [heap_lookup|]
  | |- wp (wr _ _) _ _ => eapply wp_wr; [heap_lookup|]
  | |- wp (Lock _) _ _ => eapply wp_Lock; [heap_lookup|heap_lookup|]
  | |- wp (Unlock _) _ _ => eapply wp_Unlock; [heap_lookup|heap_lookup|]
  end;
  cbn [ctx pdf pageTotal objTotal mtx set_ctx set_pdf set_pageTotal set_objTotal set_mtx].

Ltac wp_run := repeat wp_step.

(** The same for runs that may end the process. *)
Ltac wpf_step :=
  cbv beta;
  lazymatch goal with
  | |- wpf (mbind _ _) _ _ _ => apply wpf_bind
  | |- wpf (defer _ _) _ _ _ => apply wpf_defer
  | |- wpf (C_GoStringN _ _) _ _ _ => fail
  | |- wpf _ _ _ _ => apply wpf_of_wp; wp_step; repeat wp_step
  end;
  cbn [ctx pdf pageTotal objTotal mtx set_ctx set_pdf set_pageTotal set_objTotal set_mtx].

Ltac wpf_run := repeat wpf_step.

(** The trace of the final world, with the appends of the run reassociated. *)
Ltac trace_eq := cbn [docs trace fst snd]; rewrite <- ?app_assoc; cbn [app]; reflexivity.

(** ** What each operation does in a run *)

Section Operations.
Context {E : Env}.
Implicit Types (w : @World E) (l : loc) (d : Document).

Lemma Text_run l d i w :
  docs w !! l = Some d → mtx d = false →
  ∃ s err w' evs, Text (Some l) i w = Done (s, err) w' ∧ docs w' = docs w ∧
    trace w' = (trace w ++ EvLock l :: evs) ++ [EvUnlock l] ∧ calls_only evs ∧
    if (i <? 0) || (pageTotal d <=? i)
    then s = ""%string ∧ err = Some ErrPageMissing ∧ evs = []
    else err = None ∧
      ∃ v rest, evs = EvCall (pdf_load_page (ctx d) (pdf d) (C_int i)) v :: rest.
Proof.
  destruct w as [hp n t]. cbn [docs trace]. intros Hl Hm.
  cut (wp (Text (Some l) i) (mkWorld hp n t) (λ r w', ∃ evs, docs w' = hp ∧
    trace w' = (t ++ EvLock l :: evs) ++ [EvUnlock l] ∧ calls_only evs ∧
    if (i <? 0) || (pageTotal d <=? i)
    then r.1 = ""%string ∧ r.2 = Some ErrPageMissing ∧ evs = []
    else r.2 = None ∧
      ∃ v rest, evs = EvCall (pdf_load_page (ctx d) (pdf d) (C_int i)) v :: rest)).
  { intros H. apply wp_elim in H as ([s err] & w' & Hrun & evs & H).
    exists s, err, w', evs. tauto. }
  unfold Text. wp_run.
  destruct ((i <? 0) || (pageTotal d <=? i)) eqn:Hrange.
  - wp_run. exists []. cbn [docs trace fst snd]. rewrite relock_heap by done.
    repeat split; constructor.
  - wp_run. eexists. cbn [docs trace fst snd]. rewrite relock_heap by done.
    split; [done|]. split; [f_equal; trace_eq|].
    split; [repeat constructor | eauto].
Qed.

Lemma ImageBytes_run l d k w :
  docs w !! l = Some d → mtx d = false →
  ImageBytes_outcome l d k w (ImageBytes (Some l) k w).
Proof.
  intros Hl Hm.
  cut (wpf (ImageBytes (Some l) k) w
         (λ r w', ImageBytes_outcome l d k w (Done r w'))
         (λ msg w', ImageBytes_outcome l d k w (Fatal msg w'))).
  { unfold wpf. destruct (ImageBytes (Some l) k w); tauto. }
  destruct w as [hp n t]. cbn [docs] in Hl.
  unfold ImageBytes. wpf_run.
  destruct ((k <=? 0) || (objTotal d <=? k)) eqn:Hrange.
  - wpf_run. apply object_missing; cbn [docs trace].
    + apply orb_true_iff in Hrange. rewrite !Z.leb_le in Hrange. lia.
    + now apply relock_heap.
    + now rewrite <- app_assoc.
  - apply orb_false_iff in Hrange as [H1%Z.leb_gt H2%Z.leb_gt].
    wpf_run. unfold isImage. wpf_run.
    match goal with
    | |- context [C_int 1 =? as_int ?r] => destruct (C_int 1 =? as_int r) eqn:Himg
    end; change (C_int 1) with 1 in Himg.
    + apply Z.eqb_eq in Himg. unfold saveImage. wpf_run.
      apply wpf_GoStringN.
      * intros Hneg. cbn [trace]. rewrite <- ?app_assoc. cbn [app].
        eapply object_too_large; cbn [docs trace];
          [lia | symmetry; exact Himg | exact Hneg | reflexivity | reflexivity].
      * intros Hok vb nb Hcall. wpf_run.
        cbn [trace]. rewrite <- ?app_assoc. cbn [app].
        eapply object_image; cbn [docs trace];
          [lia | symmetry; exact Himg | exact Hok | now apply relock_heap | reflexivity].
    + apply Z.eqb_neq in Himg. wpf_run.
      cbn [trace]. rewrite <- ?app_assoc. cbn [app].
      eapply object_not_image; cbn [docs trace];
        [lia | intros Heq; now rewrite Heq in Himg | now apply relock_heap | reflexivity].
Qed.

(** The shape of an [ImageBytes] run: a lock, calls, and an unlock when it
    returns; a lock and calls when it ends the process. *)
Lemma ImageBytes_shape l d k w :
  docs w !! l = Some d → mtx d = false →
  ∃ w' evs, calls_only evs ∧
    ((∃ b err, ImageBytes (Some l) k w = Done (b, err) w' ∧ docs w' = docs w ∧
        trace w' = trace w ++ EvLock l :: evs ++ [EvUnlock l] ∧
        (((k <= 0 ∨ objTotal d <= k) ∧ err = Some ErrObjMissing ∧ b = [] ∧ evs = [])
         ∨ (1 <= k < objTotal d ∧ (err = None ∨ err = Some ErrNotImage) ∧
            ∃ v rest, evs = EvCall (pdf_load_object (ctx d) (pdf d) (C_int k)) v :: rest)))
     ∨ (ImageBytes (Some l) k w = Fatal out_of_memory w' ∧ 1 <= k < objTotal d ∧
        docs w' = <[l := set_mtx true d]> (docs w) ∧
        trace w' = trace w ++ EvLock l :: evs ∧
        ∃ v rest, evs = EvCall (pdf_load_object (ctx d) (pdf d) (C_int k)) v :: rest)).
Proof.
  intros Hl Hm. pose proof (ImageBytes_run l d k w Hl Hm) as Hout.
  destruct Hout as [w' Hk Hd Ht | w' vo vt vr Hk Hr Hd Ht
                   | w' vo vt vr vref vimg vbuf vsize vstr vb u1 u2 u3 Hk Hr Hs Hd Ht
                   | w' vo vt vr vref vimg vbuf vsize vstr Hk Hr Hs Hd Ht].
  - exists w', []. split; [constructor|]. left. exists [], (Some ErrObjMissing).
    split; [done|]. split; [done|]. split; [done|]. left. done.
  - exists w', (image_test_events (E:=E) d k vo vt vr). split; [repeat constructor|]. left.
    exists [], (Some ErrNotImage). split; [done|]. split; [done|]. split; [done|].
    right. split; [done|]. split; [now right|]. unfold image_test_events. eauto.
  - exists w', (image_test_events (E:=E) d k vo vt vr
                  ++ image_encode_events d k vref vimg vbuf vsize vstr
                  ++ EvCall (GoStringN (as_ptr vstr) (C_int (as_size vsize))) vb
                  :: image_drop_events d vref vimg vbuf u1 u2 u3).
    split; [repeat constructor|]. left. exists (as_bytes vb), None.
    split; [done|]. split; [done|].
    split; [rewrite Ht; unfold image_test_events, image_encode_events, image_drop_events;
            reflexivity|].
    right. split; [done|]. split; [now left|]. unfold image_test_events. cbn [app]. eauto.
  - exists w', (image_test_events (E:=E) d k vo vt vr
                  ++ image_encode_events d k vref vimg vbuf vsize vstr).
    split; [repeat constructor|]. right.
    split; [done|]. split; [done|]. split; [done|]. split; [done|].
    unfold image_test_events. cbn [app]. eauto.
Qed.

(** [Image] goes the way [ImageBytes] goes. *)
Lemma Image_outcome (f : DocPtr) k w :
  Image f k w =
    match ImageBytes f k w with
    | Done (b, err) w' => Done (if err is Some _ then (None, err) else image_Decode E b) w'
    | Panic msg w' => Panic msg w'
    | Blocked w' => Blocked w'
    | Fatal msg w' => Fatal msg w'
    end.
Proof.
  unfold Image, mbind, M_bind. destruct (ImageBytes f k w) as [[b [e|]] w'| | |]; reflexivity.
Qed.

Lemma ToC_run l d w :
  docs w !! l = Some d →
  ∃ w' rest,
    let vo := (native E (pdf_load_outline (ctx d) (pdf d)) (ns w)).1 in
    ToC (Some l) w =
      Done (if as_outline vo is outline_nil then ([], Some ErrLoadOutline)
            else (walk (as_outline vo) 1 [], None)) w' ∧
    docs w' = docs w ∧
    trace w' = trace w ++ EvCall (pdf_load_outline (ctx d) (pdf d)) vo :: rest ∧
    calls_only rest.
Proof.
  destruct w as [hp n t]. cbn [docs trace ns]. intros Hl.
  cut (wp (ToC (Some l)) (mkWorld hp n t) (λ r w', ∃ rest,
    let vo := (native E (pdf_load_outline (ctx d) (pdf d)) n).1 in
    r = (if as_outline vo is outline_nil then ([], Some ErrLoadOutline)
         else (walk (as_outline vo) 1 [], None)) ∧
    docs w' = hp ∧
    trace w' = t ++ EvCall (pdf_load_outline (ctx d) (pdf d)) vo :: rest ∧
    calls_only rest)).
  { intros H. apply wp_elim in H as (r & w' & Hrun & rest & -> & H).
    exists w', rest. cbn zeta. tauto. }
  unfold ToC. wp_run.
  match goal with H : native _ _ _ = _ |- _ => rewrite H end. cbn [fst].
  destruct (as_outline v) eqn:Ho.
  - wp_run. exists []. repeat split; constructor.
  - wp_run. eexists. split; [done|]. split; [done|]. split; [trace_eq|].
    repeat constructor.
Qed.

Lemma Close_run l d w :
  docs w !! l = Some d →
  ∃ w' v1 v2, Close (Some l) w = Done None w' ∧ docs w' = docs w ∧
    trace w' = trace w ++ [EvCall (pdf_drop_document (ctx d) (pdf d)) v1;
                           EvCall (fz_drop_context (ctx d)) v2].
Proof.
  destruct w as [hp n t]. cbn [docs trace]. intros Hl.
  cut (wp (Close (Some l)) (mkWorld hp n t) (λ r w', ∃ v1 v2, r = None ∧ docs w' = hp ∧
    trace w' = t ++ [EvCall (pdf_drop_document (ctx d) (pdf d)) v1;
                     EvCall (fz_drop_context (ctx d)) v2])).
  { intros H. apply wp_elim in H as (r & w' & Hrun & v1 & v2 & -> & H).
    exists w', v1, v2. tauto. }
  unfold Close. wp_run. do 2 eexists. split; [done|]. split; [done|]. trace_eq.
Qed.

(** A caller that finds the mutex held waits. *)
Lemma Text_waits l d i w :
  docs w !! l = Some d → mtx d = true → Text (Some l) i w = Blocked w.
Proof.
  intros Hl Hm. unfold Text, mbind, M_bind. now rewrite (Lock_held l d w Hl Hm).
Qed.

End Operations.

Section MetadataRun.
Context {E : Env}.
Implicit Types (w : @World E) (l : loc) (d : Document).

Lemma wp_Metadata_lookup l d name hp (n : NS E) t Q :
  hp !! l = Some d →
  (∀ v evs n', lookup_events d name v evs → Q v (mkWorld hp n' (t ++ evs))) →
  wp (Metadata_lookup (Some l) name) (mkWorld hp n t) Q.
Proof.
  intros Hl HQ. unfold Metadata_lookup. wp_run.
  rewrite <- !app_assoc. cbn [app]. apply HQ.
  do 3 eexists. split; reflexivity.
Qed.

Lemma Metadata_run l d w :
  docs w !! l = Some d →
  ∃ data w' vs evss, Metadata (Some l) w = Done data w' ∧ docs w' = docs w ∧
    trace w' = trace w ++ concat evss ∧
    Forall3 (λ kn v evs, lookup_events d kn.2 v evs) metadata_keys vs evss ∧
    data = foldl (λ m kv, <[kv.1 := kv.2]> m) ∅ (zip metadata_keys.*1 vs).
Proof.
  destruct w as [hp n t]. cbn [docs trace]. intros Hl.
  cut (wp (Metadata (Some l)) (mkWorld hp n t) (λ data w', ∃ vs evss, docs w' = hp ∧
    trace w' = t ++ concat evss ∧
    Forall3 (λ kn v evs, lookup_events d kn.2 v evs) metadata_keys vs evss ∧
    data = foldl (λ m kv, <[kv.1 := kv.2]> m) ∅ (zip metadata_keys.*1 vs))).
  { intros H. apply wp_elim in H as (data & w' & Hrun & vs & evss & H).
    exists data, w', vs, evss. tauto. }
  unfold Metadata.
  apply wp_bind, (wp_Metadata_lookup l d); [done|]; intros v1 e1 n1 H1; cbv beta.
  apply wp_bind, (wp_Metadata_lookup l d); [done|]; intros v2 e2 n2 H2; cbv beta.
  apply wp_bind, (wp_Metadata_lookup l d); [done|]; intros v3 e3 n3 H3; cbv beta.
  apply wp_bind, (wp_Metadata_lookup l d); [done|]; intros v4 e4 n4 H4; cbv beta.
  apply wp_bind, (wp_Metadata_lookup l d); [done|]; intros v5 e5 n5 H5; cbv beta.
  apply wp_bind, (wp_Metadata_lookup l d); [done|]; intros v6 e6 n6 H6; cbv beta.
  apply wp_bind, (wp_Metadata_lookup l d); [done|]; intros v7 e7 n7 H7; cbv beta.
  apply wp_bind, (wp_Metadata_lookup l d); [done|]; intros v8 e8 n8 H8; cbv beta.
  apply wp_bind, (wp_Metadata_lookup l d); [done|]; intros v9 e9 n9 H9; cbv beta.
  apply wp_bind, (wp_Metadata_lookup l d); [done|]; intros v10 e10 n10 H10; cbv beta.
  apply wp_ret.
  exists [v1; v2; v3; v4; v5; v6; v7; v8; v9; v10], [e1; e2; e3; e4; e5; e6; e7; e8; e9; e10].
  split; [done|]. split.
  { cbn [trace concat]. rewrite <- !app_assoc, app_nil_r. reflexivity. }
  split; [|reflexivity].
  repeat (constructor; [assumption|]). constructor.
Qed.

(** A lookup that writes nothing, or only NUL bytes, yields the empty string. *)
Lemma TrimRight_replicate k : TrimRight (replicate k x00) [x00] = [].
Proof. induction k as [|k IH]; [done|]. cbn. now rewrite IH. Qed.

Lemma metadata_value_absent (written : list byte) :
  Forall (λ x, x = x00) written → metadata_value written = ""%string.
Proof.
  intros Hz. unfold metadata_value, written_over.
  assert (Hrep : ∀ (b : list byte), Forall (λ x, x = x00) b → b = replicate (length b) x00).
  { induction 1 as [|x b -> _ IH]; [done|]. cbn. now rewrite <- IH. }
  rewrite (Hrep written Hz), drop_replicate, <- replicate_add, take_replicate.
  now rewrite TrimRight_replicate.
Qed.

End MetadataRun.

(** ** Opening a document *)

(** Membership of an event in an explicit list of events, case by case. *)
Ltac elem_cases H :=
  repeat first
    [ apply elem_of_nil in H; contradiction
    | apply elem_of_cons in H as [H|H]; [try discriminate H|] ].

Section Opening.
Context {E : Env}.
Implicit Types (w : @World E) (l : loc) (d : Document).

(** *** Reading a stream *)

Lemma ReadAll_delivers (r : Reader) :
  ∃ chunks last rest, delivers r chunks last rest ∧
    ReadAll r =
      (concat chunks ++ from_option fst [] last,
       match last with Some (_, io_EOF) | None => None | Some (_, e) => Some e end,
       rest).
Proof.
  induction r as [|[p [e|]] r IH].
  - exists [], None, []. now cbn.
  - exists [], (Some (p, e)), r. split; [now cbn|]. cbn. now destruct e.
  - destruct IH as (chunks & last & rest & Hd & Hr).
    exists (p :: chunks), last, rest. split.
    + destruct last as [[q e]|]; cbn in *; [now rewrite Hd|].
      destruct Hd as [-> ->]. done.
    + cbn. rewrite Hr. now rewrite <- app_assoc.
Qed.

End Opening.

(** ** The outline walk *)

Section OutlineWalk.

Lemma int64_small (n : Z) : - 2 ^ 63 <= n < 2 ^ 63 → int64 n = n.
Proof.
  intros Hn. unfold int64, wrap. change (64 - 1) with 63.
  rewrite Z.mod_small; lia.
Qed.

Lemma outline_depth_nonneg (o : fz_outline) : 0 <= outline_depth o.
Proof. induction o; cbn [outline_depth]; lia. Qed.

(** Below a nesting of [2^63] levels the level counter does not wrap, and
    [walk] appends the pre-order flattening. *)
Lemma walk_flatten (o : fz_outline) : ∀ (level : Z) (data : list Outline),
  1 <= level → level + outline_depth o <= 2 ^ 63 →
  walk o level data = data ++ flatten o level.
Proof.
  induction o as [|title uri page y down IHdown next IHnext];
    intros level data Hlevel Hdepth; cbn [walk flatten outline_depth] in *.
  - now rewrite app_nil_r.
  - pose proof (outline_depth_nonneg down). pose proof (outline_depth_nonneg next).
    rewrite IHnext by lia.
    destruct down as [|t' u' p' y' down' next'] eqn:Hdown.
    + cbn [flatten]. now rewrite <- !app_assoc.
    + rewrite <- Hdown in *.
      assert (1 <= outline_depth down).
      { rewrite Hdown. cbn [outline_depth].
        pose proof (outline_depth_nonneg down'). lia. }
      rewrite int64_small by lia. rewrite IHdown by lia.
      now rewrite <- !app_assoc.
Qed.

Lemma level_steps_app (lv : Z) (xs ys : list Z) : ∀ prev,
  level_steps prev xs → Forall (λ x, lv <= x + 1) xs → lv <= prev + 1 →
  (∀ prev', lv <= prev' + 1 → level_steps prev' ys) →
  level_steps prev (xs ++ ys).
Proof.
  induction xs as [|x xs IH]; intros prev Hxs Hge Hprev Hys; cbn [app level_steps] in *.
  - now apply Hys.
  - destruct Hxs as (H1 & H2 & Hxs). inversion Hge; subst.
    repeat split; [done|done|]. now apply IH.
Qed.

Lemma flatten_levels (o : fz_outline) : ∀ level prev,
  1 <= level → level <= prev + 1 →
  level_steps prev (Level <$> flatten o level)
  ∧ Forall (λ x, level <= x) (Level <$> flatten o level).
Proof.
  induction o as [|title uri page y down IHdown next IHnext];
    intros level prev Hlevel Hprev; cbn [flatten fmap list_fmap level_steps].
  - split; [done|constructor].
  - rewrite fmap_app.
    destruct (IHdown (level + 1) level) as [Hd1 Hd2]; [lia|lia|].
    destruct (IHnext level level) as [_ Hn2]; [lia|lia|].
    split.
    + cbn [Level]. repeat split; [done|done|].
      apply (level_steps_app level); [done| |lia|].
      * eapply Forall_impl; [exact Hd2|]. cbn. intros; lia.
      * intros prev' Hp. now apply IHnext.
    + constructor; [cbn; lia|]. apply Forall_app. split; [|done].
      eapply Forall_impl; [exact Hd2|]. cbn. intros; lia.
Qed.

Lemma level_steps_lookup (levels : list Z) : ∀ prev,
  level_steps prev levels →
  Forall (λ x, 1 <= x) levels ∧
  ∀ i x x', levels !! i = Some x → levels !! S i = Some x' → x' <= x + 1.
Proof.
  induction levels as [|a levels IH]; intros prev Hs; cbn [level_steps] in Hs.
  - split; [constructor|]. intros i x x' Hx. now rewrite lookup_nil in Hx.
  - destruct Hs as (H1 & H2 & Hs). destruct (IH a Hs) as [Hall Hadj].
    split; [now constructor|].
    intros [|i] x x' Hx Hx'; cbn in Hx, Hx'.
    + injection Hx as <-. destruct levels as [|b levels]; [done|].
      cbn in Hx'. injection Hx' as <-. cbn [level_steps] in Hs. lia.
    + eauto.
Qed.

Lemma flatten_levels_ok (o : fz_outline) : levels_ok (flatten o 1).
Proof.
  unfold levels_ok. destruct o as [|title uri page y down next]; cbn [flatten fmap list_fmap].
  - done.
  - cbn [Level]. split; [done|]. rewrite fmap_app. change (1 + 1) with 2.
    destruct (flatten_levels down 2 1) as [Hd1 Hd2]; [lia|lia|].
    apply (level_steps_app 1); [done| |lia|].
    + eapply Forall_impl; [exact Hd2|]. cbn. intros; lia.
    + intros prev' Hp. now apply flatten_levels.
Qed.

End OutlineWalk.

(** ** The paths of [New] and [NewFromMemory] *)

Section OpenRuns.
Context {E : Env}.
Implicit Types (w : @World E) (l : loc) (d : Document).

Lemma New_run (filename : string) w :
  ∃ l err w' evs d, New filename w = Done (Some l, err) w' ∧ docs w !! l = None ∧
    trace w' = trace w ++ evs ∧ docs w' = <[l := d]> (docs w) ∧
    match filepath_Abs E filename with
    | (abs, Some e) => err = Some e ∧ evs = [] ∧ d = Document_zero
    | (abs, None) =>
        match os_Stat E abs with
        | Some _ => err = Some ErrNoSuchFile ∧ evs = [] ∧ d = Document_zero
        | None =>
            ∃ vc, let new_context :=
                    EvCall (fz_new_context_imp 0 0 (FZ_STORE_UNLIMITED E) (FZ_VERSION E)) vc in
              if as_ptr vc =? 0
              then err = Some ErrCreateContext ∧ evs = [new_context] ∧ d = Document_zero
              else ∃ vr vs vp vn vpages vobjs vf,
                evs = [new_context;
                       EvCall (fz_register_document_handlers (as_ptr vc)) vr;
                       EvCall (CString abs) vs;
                       EvCall (pdf_open_document (as_ptr vc) (as_ptr vs)) vp;
                       EvCall (pdf_needs_password (as_ptr vc) (as_ptr vp)) vn;
                       EvCall (pdf_count_pages (as_ptr vc) (as_ptr vp)) vpages;
                       EvCall (pdf_count_objects (as_ptr vc) (as_ptr vp)) vobjs;
                       EvCall (free (as_ptr vs)) vf] ∧
                err = open_error vp vn ∧ d = opened_document vc vp vpages vobjs
        end
    end.
Proof.
  destruct w as [hp n t]. cbn [docs trace].
  cut (wp (New filename) (mkWorld hp n t) (λ r w', ∃ l evs d,
    r.1 = Some l ∧ hp !! l = None ∧ trace w' = t ++ evs ∧ docs w' = <[l := d]> hp ∧
    match filepath_Abs E filename with
    | (abs, Some e) => r.2 = Some e ∧ evs = [] ∧ d = Document_zero
    | (abs, None) =>
        match os_Stat E abs with
        | Some _ => r.2 = Some ErrNoSuchFile ∧ evs = [] ∧ d = Document_zero
        | None =>
            ∃ vc, let new_context :=
                    EvCall (fz_new_context_imp 0 0 (FZ_STORE_UNLIMITED E) (FZ_VERSION E)) vc in
              if as_ptr vc =? 0
              then r.2 = Some ErrCreateContext ∧ evs = [new_context] ∧ d = Document_zero
              else ∃ vr vs vp vn vpages vobjs vf,
                evs = [new_context;
                       EvCall (fz_register_document_handlers (as_ptr vc)) vr;
                       EvCall (CString abs) vs;
                       EvCall (pdf_open_document (as_ptr vc) (as_ptr vs)) vp;
                       EvCall (pdf_needs_password (as_ptr vc) (as_ptr vp)) vn;
                       EvCall (pdf_count_pages (as_ptr vc) (as_ptr vp)) vpages;
                       EvCall (pdf_count_objects (as_ptr vc) (as_ptr vp)) vobjs;
                       EvCall (free (as_ptr vs)) vf] ∧
                r.2 = open_error vp vn ∧ d = opened_document vc vp vpages vobjs
        end
    end)).
  { intros H. apply wp_elim in H as ([f err] & w' & Hrun & l & evs & d & Hf & H).
    cbn [fst snd] in *. subst f. exists l, err, w', evs, d. tauto. }
  unfold New. wp_step. apply wp_new_Document. intros l Hfresh. cbv beta.
  destruct (filepath_Abs E filename) as [abs [e|]].
  { wp_run. exists l, [], Document_zero. cbn [fst snd docs trace].
    now rewrite app_nil_r. }
  destruct (os_Stat E abs) as [e|].
  { wp_run. exists l, [], Document_zero. cbn [fst snd docs trace].
    now rewrite app_nil_r. }
  wp_run. destruct (as_ptr v =? 0) eqn:Hctx.
  { wp_run. eexists l, _, _. cbn [fst snd docs trace].
    split; [done|]. split; [done|]. split; [reflexivity|].
    split; [apply insert_insert_eq|]. exists v. cbn zeta. rewrite Hctx.
    apply Z.eqb_eq in Hctx. rewrite Hctx. done. }
  wp_run. eexists l, _, _. cbn [fst snd docs trace].
  split; [done|]. split; [done|]. split; [trace_eq|].
  split; [rewrite !insert_insert_eq; reflexivity|].
  exists v. cbn zeta. rewrite Hctx. do 7 eexists. split; [reflexivity|].
  split; [|reflexivity].
  unfold open_error. now destruct (as_int _ =? 0), (as_ptr _ =? 0).
Qed.

Lemma NewFromMemory_run (b : list byte) w :
  ∃ l err w' evs d, NewFromMemory b w = Done (Some l, err) w' ∧ docs w !! l = None ∧
    trace w' = trace w ++ evs ∧ docs w' = <[l := d]> (docs w) ∧
    ∃ vc, let new_context :=
            EvCall (fz_new_context_imp 0 0 (FZ_STORE_UNLIMITED E) (FZ_VERSION E)) vc in
      if as_ptr vc =? 0
      then err = Some ErrCreateContext ∧ evs = [new_context] ∧ d = Document_zero
      else ∃ vr vdata vstream,
        let prefix :=
          [new_context;
           EvCall (fz_register_document_handlers (as_ptr vc)) vr;
           EvCall (CBytes b) vdata;
           EvCall (fz_open_memory (as_ptr vc) (as_ptr vdata) (Z.of_nat (length b))) vstream] in
        if as_ptr vstream =? 0
        then err = Some ErrOpenMemory ∧ evs = prefix ∧ d = set_ctx (as_ptr vc) Document_zero
        else ∃ vp vn vpages vobjs vf,
          evs = prefix ++
                [EvCall (pdf_open_document_with_stream (as_ptr vc) (as_ptr vstream)) vp;
                 EvCall (pdf_needs_password (as_ptr vc) (as_ptr vp)) vn;
                 EvCall (pdf_count_pages (as_ptr vc) (as_ptr vp)) vpages;
                 EvCall (pdf_count_objects (as_ptr vc) (as_ptr vp)) vobjs;
                 EvCall (fz_drop_stream (as_ptr vc) (as_ptr vstream)) vf] ∧
          err = open_error vp vn ∧ d = opened_document vc vp vpages vobjs.
Proof.
  destruct w as [hp n t]. cbn [docs trace].
  cut (wp (NewFromMemory b) (mkWorld hp n t) (λ r w', ∃ l evs d,
    r.1 = Some l ∧ hp !! l = None ∧ trace w' = t ++ evs ∧ docs w' = <[l := d]> hp ∧
    ∃ vc, let new_context :=
            EvCall (fz_new_context_imp 0 0 (FZ_STORE_UNLIMITED E) (FZ_VERSION E)) vc in
      if as_ptr vc =? 0
      then r.2 = Some ErrCreateContext ∧ evs = [new_context] ∧ d = Document_zero
      else ∃ vr vdata vstream,
        let prefix :=
          [new_context;
           EvCall (fz_register_document_handlers (as_ptr vc)) vr;
           EvCall (CBytes b) vdata;
           EvCall (fz_open_memory (as_ptr vc) (as_ptr vdata) (Z.of_nat (length b))) vstream] in
        if as_ptr vstream =? 0
        then r.2 = Some ErrOpenMemory ∧ evs = prefix ∧ d = set_ctx (as_ptr vc) Document_zero
        else ∃ vp vn vpages vobjs vf,
          evs = prefix ++
                [EvCall (pdf_open_document_with_stream (as_ptr vc) (as_ptr vstream)) vp;
                 EvCall (pdf_needs_password (as_ptr vc) (as_ptr vp)) vn;
                 EvCall (pdf_count_pages (as_ptr vc) (as_ptr vp)) vpages;
                 EvCall (pdf_count_objects (as_ptr vc) (as_ptr vp)) vobjs;
                 EvCall (fz_drop_stream (as_ptr vc) (as_ptr vstream)) vf] ∧
          r.2 = open_error vp vn ∧ d = opened_document vc vp vpages vobjs)).
  { intros H. apply wp_elim in H as ([f err] & w' & Hrun & l & evs & d & Hf & H).
    cbn [fst snd] in *. subst f. exists l, err, w', evs, d. tauto. }
  unfold NewFromMemory. wp_step. apply wp_new_Document. intros l Hfresh. cbv beta.
  wp_run. destruct (as_ptr v =? 0) eqn:Hctx.
  { wp_run. eexists l, _, _. cbn [fst snd docs trace].
    split; [done|]. split; [done|]. split; [reflexivity|].
    split; [apply insert_insert_eq|]. exists v. cbn zeta. rewrite Hctx.
    apply Z.eqb_eq in Hctx. rewrite Hctx. done. }
  wp_run.
  match goal with
  | |- context [as_ptr ?s =? 0] =>
      lazymatch s with v => fail | _ => destruct (as_ptr s =? 0) eqn:Hstream end
  end.
  { wp_run. eexists l, _, _. cbn [fst snd docs trace].
    split; [done|]. split; [done|]. split; [trace_eq|].
    split; [apply insert_insert_eq|]. exists v. cbn zeta. rewrite Hctx.
    do 3 eexists. rewrite Hstream. done. }
  wp_run. eexists l, _, _. cbn [fst snd docs trace].
  split; [done|]. split; [done|]. split; [trace_eq|].
  split; [rewrite !insert_insert_eq; reflexivity|].
  exists v. cbn zeta. rewrite Hctx. do 3 eexists. rewrite Hstream.
  do 5 eexists. split; [reflexivity|]. split; [|reflexivity].
  unfold open_error. now destruct (as_int _ =? 0), (as_ptr _ =? 0).
Qed.

End OpenRuns.

(** ** Lock events of a run *)

Section LockEvents.

Lemma lock_state_app (l : loc) (xs ys : list event) : ∀ held held',
  lock_state l held xs = Some held' →
  lock_state l held (xs ++ ys) = lock_state l held' ys.
Proof.
  induction xs as [|e xs IH]; intros held held' Hxs; cbn [app lock_state] in *.
  - now injection Hxs as ->.
  - destruct e as [l'|l'|c v].
    + destruct (held || negb (l' =? l)%nat); [discriminate|]. now apply IH.
    + destruct (held && (l' =? l)%nat); [|discriminate]. now apply IH.
    + now apply IH.
Qed.

Lemma lock_state_calls (l : loc) (evs : list event) (held : bool) :
  calls_only evs → lock_state l held evs = Some held.
Proof.
  induction 1 as [|e evs He _ IH]; [done|].
  destruct e; cbn in He; try discriminate. exact IH.
Qed.

(** A lock, calls, an unlock: the shape of a [Text] or [ImageBytes] run. *)
Lemma lock_state_bracket (l : loc) (evs : list event) :
  calls_only evs → lock_state l false (EvLock l :: evs ++ [EvUnlock l]) = Some false.
Proof.
  intros Hc. cbn [lock_state orb]. rewrite Nat.eqb_refl. cbn [negb].
  rewrite (lock_state_app l evs _ true true) by now apply lock_state_calls.
  cbn. now rewrite Nat.eqb_refl.
Qed.

Lemma calls_of_app (xs ys : list event) : calls_of (xs ++ ys) = calls_of xs ++ calls_of ys.
Proof. apply omap_app. Qed.

End LockEvents.

(** ** More on the outline walk *)

Section WalkAppends.

Lemma walk_app (o : fz_outline) : ∀ (level : Z) (data : list Outline),
  walk o level data = data ++ walk o level [].
Proof.
  induction o as [|title uri page y down IHdown next IHnext]; intros level data;
    cbn [walk].
  - now rewrite app_nil_r.
  - rewrite IHnext. rewrite (IHnext level (match down with outline_nil => _ | _ => _ end)).
    destruct down as [|t' u' p' y' down' next'].
    + now rewrite <- !app_assoc.
    + rewrite IHdown. rewrite (IHdown _ ([] ++ _)). now rewrite <- !app_assoc.
Qed.

Lemma walk_fields (o : fz_outline) : ∀ (level : Z),
  entry_fields <$> walk o level [] = preorder o.
Proof.
  induction o as [|title uri page y down IHdown next IHnext]; intros level;
    cbn [walk preorder]; [done|].
  rewrite walk_app, fmap_app, IHnext.
  destruct down as [|t' u' p' y' down' next'] eqn:Hdown.
  - done.
  - rewrite walk_app, fmap_app, IHdown. done.
Qed.

End WalkAppends.

(** ** More on the content sniffer *)

Section Sniffer.

Lemma ix_take (b : list byte) (i k : nat) (x : byte) :
  (i < k)%nat → ix (take k b) i x = ix b i x.
Proof. intros Hi. unfold ix. now rewrite lookup_take_lt. Qed.

End Sniffer.

(** ** More on metadata values *)

Section MetadataValues.

Lemma TrimRight_length (s cutset : list byte) :
  (length (TrimRight s cutset) <= length s)%nat.
Proof.
  induction s as [|x s IH]; cbn [TrimRight length]; [lia|].
  destruct (TrimRight s cutset) as [|y t].
  - destruct (existsb (Byte.eqb x) cutset); cbn; lia.
  - cbn in *. lia.
Qed.

Lemma TrimRight_last (s : list byte) : last (TrimRight s [x00]) ≠ Some x00.
Proof.
  induction s as [|x s IH]; cbn [TrimRight]; [done|].
  destruct (TrimRight s [x00]) as [|y t] eqn:Ht.
  - cbn [existsb orb]. destruct (Byte.eqb x x00) eqn:Hx; cbn; [done|].
    intros [= ->]. now rewrite (Byte.byte_dec_lb eq_refl) in Hx.
  - exact IH.
Qed.

(** Bytes that do not end in NUL lose nothing. *)
Lemma TrimRight_id (s : list byte) : last s ≠ Some x00 → TrimRight s [x00] = s.
Proof.
  induction s as [|x s IH]; intros Hlast; cbn [TrimRight]; [done|].
  destruct s as [|y s'].
  - cbn in *. destruct (Byte.eqb x x00) eqn:Hx; [|done].
    apply Byte.byte_dec_bl in Hx. now subst.
  - rewrite IH by exact Hlast. done.
Qed.

Lemma TrimRight_nul_tail (s : list byte) (k : nat) :
  TrimRight (s ++ replicate k x00) [x00] = TrimRight s [x00].
Proof.
  induction s as [|x s IH]; cbn [app TrimRight].
  - apply TrimRight_replicate.
  - now rewrite IH.
Qed.

Lemma written_over_length (buf written : list byte) :
  length (written_over buf written) = length buf.
Proof.
  unfold written_over. rewrite length_take, length_app, length_drop. lia.
Qed.

Lemma bytes_of_string_of_bytes (b : list byte) : bytes_of_string (string_of_bytes b) = b.
Proof. apply String.list_byte_of_string_of_list_byte. Qed.

End MetadataValues.

(** ** Calls of a sequential caller *)

Section Callers.
Context {E : Env}.
Implicit Types (w : @World E) (l : loc) (d : Document).

Lemma lookup_events_calls d (keys : list (string * string)) vs evss :
  Forall3 (λ kn v evs, lookup_events d kn.2 v evs) keys vs evss →
  calls_only (concat evss).
Proof.
  induction 1 as [|kn v evs keys vs evss (ckey & r & u & -> & _) _ IH]; [constructor|].
  cbn [concat app]. repeat (constructor; [done|]). exact IH.
Qed.

Lemma lookup_events_keep_open d (keys : list (string * string)) vs evss :
  Forall3 (λ kn v evs, lookup_events d kn.2 v evs) keys vs evss →
  keeps_open (concat evss).
Proof.
  induction 1 as [|kn v evs keys vs evss (ckey & r & u & -> & _) _ IH]; [constructor|].
  cbn [concat app]. repeat (constructor; [done|]). exact IH.
Qed.

(** What the events of one [ImageBytes] run look like, whichever way it
    went. *)
Lemma ImageBytes_events l d k w (r : result (list byte * option error)) :
  ImageBytes_outcome l d k w r →
  ∃ evs, trace (world_of r) = trace w ++ evs ∧ keeps_open evs ∧
    match r with
    | Done _ w' => docs w' = docs w ∧ lock_state l false evs = Some false
    | Fatal msg w' =>
        msg = out_of_memory ∧ lock_state l false evs = Some true ∧
        ∃ c buf vsize, EvCall (fz_buffer_storage c buf) vsize ∈ evs ∧
                       C_int (as_size vsize) < 0
    | Panic _ _ | Blocked _ => False
    end.
Proof.
  destruct 1; cbn [world_of]; eexists; (split; [eassumption|]);
    unfold image_test_events, image_encode_events, image_drop_events; cbn [app];
    (split; [repeat constructor|]).
  - split; [done|]. cbn. now rewrite Nat.eqb_refl.
  - split; [done|]. cbn. now rewrite Nat.eqb_refl.
  - split; [done|]. cbn. now rewrite Nat.eqb_refl.
  - split; [done|]. split; [cbn; now rewrite Nat.eqb_refl|].
    do 3 eexists. split; [|eassumption].
    do 7 apply list_elem_of_further. apply list_elem_of_here.
Qed.

(** How one call of a caller goes: it returns, with the [Document] as it
    was and the mutex free, or it is an [ImageBytes] or [Image] call that
    ends the process, with the mutex held, after [fz_buffer_storage]
    reported a size that is negative as a C [int]. *)
Lemma call_method_run l d (m : method) w :
  docs w !! l = Some d → mtx d = false →
  ∃ w' evs, trace w' = trace w ++ evs ∧ keeps_open evs ∧
    ((call_method (Some l) m w = Done tt w' ∧ docs w' = docs w ∧
      lock_state l false evs = Some false)
     ∨ (call_method (Some l) m w = Fatal out_of_memory w' ∧
        lock_state l false evs = Some true ∧
        (∃ k, m = CallImageBytes k ∨ m = CallImage k) ∧
        ∃ c buf vsize, EvCall (fz_buffer_storage c buf) vsize ∈ evs ∧
                       C_int (as_size vsize) < 0)).
Proof.
  intros Hl Hm. destruct m as [| |i|k|k| |]; unfold call_method.
  - exists w, []. rewrite app_nil_r. split; [done|]. split; [constructor|]. left.
    unfold NumPage, rd, fmap, M_fmap, mbind, M_bind, deref. cbn. now rewrite Hl.
  - exists w, []. rewrite app_nil_r. split; [done|]. split; [constructor|]. left.
    unfold NumObj, rd, fmap, M_fmap, mbind, M_bind, deref. cbn. now rewrite Hl.
  - assert (Hwp : wp (Text (Some l) i) w (λ _ w', ∃ evs, docs w' = docs w ∧
              trace w' = trace w ++ evs ∧ keeps_open evs ∧
              lock_state l false evs = Some false)).
    { destruct w as [hp n t]. cbn [docs trace] in *. unfold Text. wp_run.
      destruct ((i <? 0) || (pageTotal d <=? i)); wp_run;
        (eexists; cbn [docs trace]; rewrite relock_heap by done;
         split; [done|]; split; [trace_eq|]; split; [repeat constructor|];
         cbn; now rewrite Nat.eqb_refl). }
    apply wp_elim in Hwp as (r & w' & Hrun & evs & Hd & Ht & Hk & Hs).
    exists w', evs. split; [done|]. split; [done|]. left.
    unfold mbind, M_bind. now rewrite Hrun.
  - pose proof (ImageBytes_run l d k w Hl Hm) as Hout.
    destruct (ImageBytes_events l d k w _ Hout) as (evs & Ht & Hk & Hcase).
    exists (world_of (ImageBytes (Some l) k w)), evs. split; [done|]. split; [done|].
    unfold mbind, M_bind.
    destruct (ImageBytes (Some l) k w) as [r w'| | |msg w']; try done; cbn [world_of] in *.
    + left. tauto.
    + right. destruct Hcase as (-> & Hs & Hsize). eauto 10.
  - pose proof (ImageBytes_run l d k w Hl Hm) as Hout.
    destruct (ImageBytes_events l d k w _ Hout) as (evs & Ht & Hk & Hcase).
    exists (world_of (ImageBytes (Some l) k w)), evs. split; [done|]. split; [done|].
    unfold Image, mbind, M_bind.
    destruct (ImageBytes (Some l) k w) as [[b err] w'| | |msg w']; try done;
      cbn [world_of] in *.
    + left. destruct err; tauto.
    + right. destruct Hcase as (-> & Hs & Hsize). eauto 10.
  - destruct (ToC_run l d w Hl) as (w' & rest & Hrun & Hd & Ht & Hc). cbn zeta in *.
    assert (Hwp : wp (ToC (Some l)) w (λ _ w', ∃ evs,
              trace w' = trace w ++ evs ∧ keeps_open evs)).
    { destruct w as [hp n t]. cbn [docs trace] in *. unfold ToC. wp_run.
      match goal with |- context [as_outline ?x] => destruct (as_outline x) end;
        wp_run; (eexists; split; [trace_eq|]; repeat constructor). }
    apply wp_elim in Hwp as (r & w1 & Hrun1 & evs & Ht1 & Hk).
    rewrite Hrun in Hrun1. injection Hrun1 as _ <-.
    exists w', evs. split; [done|]. split; [done|]. left.
    unfold mbind, M_bind. rewrite Hrun. split; [done|]. split; [done|].
    apply lock_state_calls. apply app_inv_head in Ht1 || idtac.
    rewrite Ht in Ht1. apply app_inv_head in Ht1. subst evs. now constructor.
  - destruct (Metadata_run l d w Hl) as (data & w' & vs & evss & Hrun & Hd & Ht & HF & _).
    exists w', (concat evss). split; [done|].
    split; [eapply lookup_events_keep_open, HF|]. left.
    unfold mbind, M_bind. rewrite Hrun. split; [done|]. split; [done|].
    apply lock_state_calls. eapply lookup_events_calls, HF.
Qed.

(** The same for the calls of a caller one after the other: the first call
    that ends the process ends the sequence. *)
Lemma call_methods_run l d (ms : list method) : ∀ w,
  docs w !! l = Some d → mtx d = false →
  ∃ w' evs, trace w' = trace w ++ evs ∧ keeps_open evs ∧
    ((call_methods (Some l) ms w = Done tt w' ∧ docs w' = docs w ∧
      lock_state l false evs = Some false)
     ∨ (call_methods (Some l) ms w = Fatal out_of_memory w' ∧
        lock_state l false evs = Some true ∧
        (∃ k, CallImageBytes k ∈ ms ∨ CallImage k ∈ ms) ∧
        ∃ c buf vsize, EvCall (fz_buffer_storage c buf) vsize ∈ evs ∧
                       C_int (as_size vsize) < 0)).
Proof.
  induction ms as [|m ms IH]; intros w Hl Hm; cbn [call_methods].
  - exists w, []. rewrite app_nil_r. split; [done|]. split; [constructor|]. now left.
  - destruct (call_method_run l d m w Hl Hm) as (w1 & evs1 & Ht1 & Hk1 & Hcase1).
    unfold mbind, M_bind.
    destruct Hcase1 as [(Hrun1 & Hd1 & Hs1) | (Hrun1 & Hs1 & (k & Hm1) & c & buf & vs & Hin & Hneg)].
    + destruct (IH w1) as (w2 & evs2 & Ht2 & Hk2 & Hcase2); [now rewrite Hd1|done|].
      exists w2, (evs1 ++ evs2). rewrite Hrun1.
      split; [now rewrite Ht2, Ht1, app_assoc|]. split; [now apply Forall_app|].
      rewrite (lock_state_app l evs1 evs2 false false Hs1).
      destruct Hcase2 as [(Hrun2 & Hd2 & Hs2) | (Hrun2 & Hs2 & (k & Hm2) & c & buf & vs & Hin & Hneg)].
      * left. split; [done|]. split; [congruence|done].
      * right. split; [done|]. split; [done|]. split.
        -- exists k. rewrite !elem_of_cons. tauto.
        -- exists c, buf, vs. rewrite elem_of_app. tauto.
    + exists w1, evs1. rewrite Hrun1. split; [done|]. split; [done|]. right.
      split; [done|]. split; [done|]. split; [|eauto].
      exists k. rewrite !elem_of_cons. destruct Hm1 as [-> | ->]; tauto.
Qed.

End Callers.

(** * The claims *)

(** C6.  [contentType b] is ["application/pdf"] when [b] has at least four
    bytes and starts with [%PDF]; it is ["application/epub+zip"] when [b]
    has at least 58 bytes, starts with [50 4B 03 04] and carries
    [mimetypeapplication/epub+zip] at bytes 30 to 57; it is the empty
    string in every other case, in particular below four bytes. *)
Theorem contentType_classifies (b : list byte) :
  (is_pdf b → contentType b = "application/pdf"%string) ∧
  (is_epub b → contentType b = "application/epub+zip"%string) ∧
  (¬ is_pdf b → ¬ is_epub b → contentType b = ""%string) ∧
  ((length b < 4)%nat → contentType b = ""%string).
Proof.
  rewrite contentType_unfold.
  destruct ((3 <? length b)%nat && matches_at b 0 pdf_magic) eqn:Hp.
  - apply pdf_test in Hp. repeat split; try done.
    + intros He. destruct (pdf_epub_disjoint b Hp He).
    + intros Hlen. destruct Hp as [Hp _]. lia.
  - assert (Hnp : ¬ is_pdf b).
    { intros H. apply pdf_test in H. congruence. }
    destruct ((57 <? length b)%nat && matches_at b 0 zip_magic && matches_at b 30 epub_marker)
      eqn:He.
    + apply epub_test in He. repeat split; try done.
      intros Hlen. destruct He as [He _]. lia.
    + assert (Hne : ¬ is_epub b).
      { intros H. apply epub_test in H. congruence. }
      repeat split; done.
Qed.

Section Claims.
Context {E : Env}.
Implicit Types (w : @World E) (l : loc) (d : Document).

(** C4.  On a handle whose mutex is free, [Text i] returns; its error is
    [ErrPageMissing] exactly when [i < 0] or [i >= NumPage()], with the
    empty string, and a page number in range gives a nil error. *)
Theorem Text_page_range l d (i : Z) w :
  docs w !! l = Some d → mtx d = false →
  NumPage (Some l) w = Done (pageTotal d) w ∧
  ∃ s err w', Text (Some l) i w = Done (s, err) w' ∧
    (err = Some ErrPageMissing ↔ i < 0 ∨ pageTotal d <= i) ∧
    (0 <= i < pageTotal d → err = None) ∧
    (err = Some ErrPageMissing → s = ""%string).
Proof.
  intros Hl Hm. split.
  { unfold NumPage, rd, fmap, M_fmap, mbind, M_bind, deref. cbn. now rewrite Hl. }
  destruct (Text_run l d i w Hl Hm) as (s & err & w' & evs & Hrun & _ & _ & _ & Hcase).
  exists s, err, w'. split; [done|].
  destruct ((i <? 0) || (pageTotal d <=? i)) eqn:Hrange.
  - destruct Hcase as (-> & -> & _).
    apply orb_true_iff in Hrange as [H%Z.ltb_lt|H%Z.leb_le];
      (repeat split; try done; intros; lia).
  - destruct Hcase as (-> & _).
    apply orb_false_iff in Hrange as [H1%Z.ltb_ge H2%Z.leb_gt].
    repeat split; try done. intros; lia.
Qed.

(** C5.  For an outline of fewer than [2^63] nested levels (any outline
    that fits in memory), what [ToC] returns is the pre-order flattening
    of the outline starting at level 1: its first entry, if any, has level
    1, every level is at least 1, and no level exceeds the level of the
    entry before it by more than 1. *)
Theorem ToC_levels l d w :
  docs w !! l = Some d →
  let o := as_outline (native E (pdf_load_outline (ctx d) (pdf d)) (ns w)).1 in
  outline_depth o < 2 ^ 63 →
  ∃ data err w', ToC (Some l) w = Done (data, err) w' ∧
    data = flatten o 1 ∧
    (∀ e, data !! 0%nat = Some e → Level e = 1) ∧
    (∀ e, e ∈ data → 1 <= Level e) ∧
    (∀ i e e', data !! i = Some e → data !! S i = Some e' → Level e' <= Level e + 1).
Proof.
  intros Hl o Hdepth.
  destruct (ToC_run l d w Hl) as (w' & rest & Hrun & _). cbn zeta in Hrun. fold o in Hrun.
  assert (Hdata : (if o is outline_nil then ([], Some ErrLoadOutline)
                   else (walk o 1 [], None)).1 = flatten o 1).
  { destruct o eqn:Ho; [done|]. rewrite <- Ho in *. cbn [fst].
    rewrite walk_flatten by lia. done. }
  destruct (if o is outline_nil then ([], Some ErrLoadOutline) else (walk o 1 [], None))
    as [data err] eqn:Hres.
  cbn [fst] in Hdata. subst data.
  exists (flatten o 1), err, w'. split; [done|]. split; [done|].
  pose proof (flatten_levels_ok o) as Hok. unfold levels_ok in Hok.
  destruct (flatten o 1) as [|e0 data] eqn:Hflat; cbn [fmap list_fmap] in Hok.
  { repeat split; intros *; try (now rewrite lookup_nil); now rewrite elem_of_nil. }
  destruct Hok as [H0 Hsteps].
  destruct (level_steps_lookup (Level <$> data) (Level e0) Hsteps) as [Hall Hadj].
  split; [|split].
  - intros e [= <-]. exact H0.
  - intros e [->|He]%elem_of_cons; [lia|].
    rewrite Forall_fmap, Forall_forall in Hall. now apply Hall.
  - intros [|i] e e' He He'.
    + cbn in He, He'. injection He as <-. destruct data as [|e1 data]; [done|].
      cbn in He'. injection He' as <-. cbn [fmap list_fmap level_steps] in Hsteps. lia.
    + apply (Hadj i (Level e) (Level e')); rewrite list_lookup_fmap.
      * change ((e0 :: data) !! S i) with (data !! i) in He. now rewrite He.
      * change ((e0 :: data) !! S (S i)) with (data !! S i) in He'. now rewrite He'.
Qed.

(** C7.  [Metadata] returns, without an error result, a map whose keys are
    exactly the ten fixed keys.  Each key holds the value of its own
    lookup: what the lookup wrote into the zeroed 256-byte buffer, with
    the trailing NUL bytes trimmed; a lookup that writes nothing, or NUL
    bytes only, yields the empty string under its key. *)
Theorem Metadata_ten_keys l d w :
  docs w !! l = Some d →
  ∃ data w' vs evss, Metadata (Some l) w = Done data w' ∧
    dom data = list_to_set metadata_keys.*1 ∧ size data = 10%nat ∧
    emitted w w' = concat evss ∧
    Forall3 (λ kn v evs, lookup_events d kn.2 v evs ∧ data !! kn.1 = Some v)
      metadata_keys vs evss ∧
    (∀ written, Forall (λ x, x = x00) written → metadata_value written = ""%string).
Proof.
  intros Hl.
  destruct (Metadata_run l d w Hl) as (data & w' & vs & evss & Hrun & _ & Htr & HF & ->).
  eexists. exists w', vs, evss. split; [exact Hrun|].
  unfold metadata_keys in HF.
  repeat match goal with
    | H : Forall3 _ (_ :: _) _ _ |- _ =>
        apply Forall3_cons_inv_l in H as (? & ? & ? & ? & -> & -> & ? & H)
    | H : Forall3 _ [] _ _ |- _ => inversion H; subst; clear H
    end.
  unfold metadata_keys. cbn [fmap list_fmap fst zip zip_with foldl snd concat].
  split; [|split; [|split; [|split]]]; [| | | |apply metadata_value_absent].
  - rewrite !dom_insert_L, dom_empty_L. cbn [list_to_set]. set_solver.
  - repeat (rewrite map_size_insert_None;
            [|repeat (rewrite lookup_insert_ne by done); apply lookup_empty]).
    now rewrite map_size_empty.
  - now apply emitted_app.
  - unfold metadata_keys.
    repeat (constructor;
      [split; [assumption|
         cbn [fst]; repeat (rewrite lookup_insert_ne by done); apply lookup_insert_eq]|]).
    constructor.
Qed.

(** C8.  Once the file checks pass and the context exists, [New] always
    makes the password check, on the document [pdf_open_document]
    returned, and [NewFromMemory] does so once its stream exists.  The
    error is [ErrNeedsPassword] exactly when the check answers non-zero.
    Whatever the check answers, the run goes on to count pages and
    objects, the returned handle is not nil and holds the context, the
    document and both counts, and neither the document nor the context is
    dropped: after [ErrNeedsPassword] the handle is live and has to be
    closed by the caller. *)
Theorem open_encrypted_keeps_handle (filename abs : string) (b : list byte) w :
  filepath_Abs E filename = (abs, None) → os_Stat E abs = None →
  (∃ l err w' vc, New filename w = Done (Some l, err) w' ∧
     head (emitted w w') =
       Some (EvCall (fz_new_context_imp 0 0 (FZ_STORE_UNLIMITED E) (FZ_VERSION E)) vc) ∧
     (as_ptr vc ≠ 0 →
        ∃ vs vp vn vpages vobjs,
          EvCall (pdf_open_document (as_ptr vc) (as_ptr vs)) vp ∈ emitted w w' ∧
          EvCall (pdf_needs_password (as_ptr vc) (as_ptr vp)) vn ∈ emitted w w' ∧
          EvCall (pdf_count_pages (as_ptr vc) (as_ptr vp)) vpages ∈ emitted w w' ∧
          EvCall (pdf_count_objects (as_ptr vc) (as_ptr vp)) vobjs ∈ emitted w w' ∧
          (err = Some ErrNeedsPassword ↔ as_int vn ≠ 0) ∧
          docs w' !! l = Some (opened_document vc vp vpages vobjs) ∧
          keeps_open (emitted w w'))) ∧
  (∃ l err w' vc vstream, NewFromMemory b w = Done (Some l, err) w' ∧
     head (emitted w w') =
       Some (EvCall (fz_new_context_imp 0 0 (FZ_STORE_UNLIMITED E) (FZ_VERSION E)) vc) ∧
     (as_ptr vc ≠ 0 →
        ∃ vdata, EvCall (fz_open_memory (as_ptr vc) (as_ptr vdata) (Z.of_nat (length b)))
                   vstream ∈ emitted w w') ∧
     (as_ptr vc ≠ 0 → as_ptr vstream ≠ 0 →
        ∃ vp vn vpages vobjs,
          EvCall (pdf_open_document_with_stream (as_ptr vc) (as_ptr vstream)) vp
            ∈ emitted w w' ∧
          EvCall (pdf_needs_password (as_ptr vc) (as_ptr vp)) vn ∈ emitted w w' ∧
          EvCall (pdf_count_pages (as_ptr vc) (as_ptr vp)) vpages ∈ emitted w w' ∧
          EvCall (pdf_count_objects (as_ptr vc) (as_ptr vp)) vobjs ∈ emitted w w' ∧
          (err = Some ErrNeedsPassword ↔ as_int vn ≠ 0) ∧
          docs w' !! l = Some (opened_document vc vp vpages vobjs) ∧
          keeps_open (emitted w w'))).
Proof.
  intros Habs Hstat.
  assert (Herr : ∀ vp vn, open_error vp vn = Some ErrNeedsPassword ↔ as_int vn ≠ 0).
  { intros vp vn. unfold open_error.
    destruct (Z.eqb_spec (as_int vn) 0) as [H0|H0]; [|tauto].
    destruct (as_ptr vp =? 0); split; (discriminate || tauto). }
  split.
  - destruct (New_run filename w)
      as (l & err & w' & evs & d & Hrun & Hfresh & Htr & Hd & Hcase).
    rewrite Habs, Hstat in Hcase. destruct Hcase as (vc & Hcase). cbn zeta in Hcase.
    exists l, err, w', vc. split; [done|].
    rewrite (emitted_app w w' evs Htr), Hd, lookup_insert_eq.
    destruct (as_ptr vc =? 0) eqn:Hctx.
    + apply Z.eqb_eq in Hctx. destruct Hcase as (-> & -> & ->).
      split; [done|]. intros Hne. now destruct Hne.
    + destruct Hcase as (vr & vs & vp & vn & vpages & vobjs & vf & -> & -> & ->).
      split; [done|]. intros _. exists vs, vp, vn, vpages, vobjs.
      split; [do 3 apply list_elem_of_further; apply list_elem_of_here|].
      split; [do 4 apply list_elem_of_further; apply list_elem_of_here|].
      split; [do 5 apply list_elem_of_further; apply list_elem_of_here|].
      split; [do 6 apply list_elem_of_further; apply list_elem_of_here|].
      split; [apply Herr|]. split; [done|]. repeat constructor.
  - destruct (NewFromMemory_run b w)
      as (l & err & w' & evs & d & Hrun & Hfresh & Htr & Hd & vc & Hcase).
    cbn zeta in Hcase. pose proof (emitted_app w w' evs Htr) as Hem.
    destruct (as_ptr vc =? 0) eqn:Hctx.
    + apply Z.eqb_eq in Hctx. destruct Hcase as (-> & -> & ->).
      exists l, (Some ErrCreateContext), w', vc, VUnit. rewrite Hem.
      split; [done|]. split; [done|].
      split; intros Hne; now destruct Hne.
    + destruct Hcase as (vr & vdata & vstream & Hcase).
      exists l, err, w', vc, vstream. rewrite Hem, Hd, lookup_insert_eq. split; [done|].
      destruct (as_ptr vstream =? 0) eqn:Hstream.
      * apply Z.eqb_eq in Hstream. destruct Hcase as (-> & -> & ->).
        split; [done|]. split.
        -- intros _. exists vdata. do 3 apply list_elem_of_further. apply list_elem_of_here.
        -- intros _ Hne. now destruct Hne.
      * destruct Hcase as (vp & vn & vpages & vobjs & vf & -> & -> & ->). cbn [app].
        split; [done|]. split.
        -- intros _. exists vdata. do 3 apply list_elem_of_further. apply list_elem_of_here.
        -- intros _ _. exists vp, vn, vpages, vobjs.
           split; [do 4 apply list_elem_of_further; apply list_elem_of_here|].
           split; [do 5 apply list_elem_of_further; apply list_elem_of_here|].
           split; [do 6 apply list_elem_of_further; apply list_elem_of_here|].
           split; [do 7 apply list_elem_of_further; apply list_elem_of_here|].
           split; [apply Herr|]. split; [done|]. repeat constructor.
Qed.

(** C9.  [NewFromReader] reads the stream until it ends or fails.  If a
    [Read] fails with an error other than [io.EOF], that very error is
    returned with a nil handle and the world is left as it was: nothing is
    allocated, no call crosses the boundary.  Otherwise the result and the
    world are those of [NewFromMemory] on all the bytes delivered. *)
Theorem NewFromReader_reads_all (r : Reader) w :
  ∃ chunks last rest, delivers r chunks last rest ∧
    match last with
    | Some (p, io_EOF) =>
        NewFromReader r w =
          result_map (λ x, (x, rest)) (NewFromMemory (concat chunks ++ p) w)
    | Some (p, e) => NewFromReader r w = Done (None, Some e, rest) w
    | None =>
        NewFromReader r w = result_map (λ x, (x, [])) (NewFromMemory (concat chunks) w)
    end.
Proof.
  destruct (ReadAll_delivers r) as (chunks & last & rest & Hd & Hr).
  exists chunks, last, rest. split; [done|].
  unfold NewFromReader. rewrite Hr.
  assert (Hmap : ∀ bs (r' : Reader), (x ← NewFromMemory bs; mret (x, r')) w
                          = result_map (λ x, (x, r')) (NewFromMemory bs w)).
  { intros bs r'. unfold mbind, M_bind, result_map. now destruct (NewFromMemory bs w). }
  destruct last as [[p e]|]; cbn [from_option fst].
  - destruct e; first [reflexivity | apply Hmap].
  - destruct Hd as [_ ->]. rewrite app_nil_r. apply Hmap.
Qed.

(** C10.  [Close] has no result other than a nil error: whenever it
    returns, it returns nil; and on any [Document], in whatever state,
    any number of calls in a row all return nil. *)
Theorem Close_returns_nil (f : DocPtr) w :
  (∀ e w', Close f w = Done e w' → e = None) ∧
  (∀ l d, f = Some l → docs w !! l = Some d →
     ∀ k, ∃ w', Close_times k f w = Done (replicate k None) w').
Proof.
  split.
  - intros e w' Hrun.
    destruct f as [l|]; [destruct (docs w !! l) as [d|] eqn:Hl|].
    + destruct (Close_run l d w Hl) as (w1 & v1 & v2 & Hc & _). congruence.
    + unfold Close, rd, fmap, M_fmap, mbind, M_bind, deref in Hrun. cbn in Hrun.
      now rewrite Hl in Hrun.
    + unfold Close, rd, fmap, M_fmap, mbind, M_bind, deref in Hrun. now cbn in Hrun.
  - intros l d -> Hl k. revert w Hl.
    induction k as [|k IH]; intros w Hl; cbn [Close_times replicate].
    + now exists w.
    + destruct (Close_run l d w Hl) as (w1 & v1 & v2 & Hc & Hdocs & _).
      destruct (IH w1) as (w2 & Hk); [now rewrite Hdocs|].
      exists w2. unfold mbind, M_bind. rewrite Hc, Hk. reflexivity.
Qed.

(** C2, as the code has it.  [Close] drops the native document and
    context and leaves the [Document] as it was: nothing marks the handle
    closed.  After it, [Text] with a page number in range, [ImageBytes]
    and [Image] with an object number in range, [ToC] and [Metadata] go on
    to call the boundary with the dropped context and document; only a
    number out of range is rejected, as before [Close]. *)
Theorem Close_sets_no_guard l d w :
  docs w !! l = Some d → mtx d = false →
  ∃ w' v1 v2, Close (Some l) w = Done None w' ∧ docs w' !! l = Some d ∧
    emitted w w' = [EvCall (pdf_drop_document (ctx d) (pdf d)) v1;
                    EvCall (fz_drop_context (ctx d)) v2] ∧
    (∀ i, 0 <= i < pageTotal d →
       ∃ s w'' v rest, Text (Some l) i w' = Done (s, None) w'' ∧
         emitted w' w'' =
           EvLock l :: EvCall (pdf_load_page (ctx d) (pdf d) (C_int i)) v :: rest) ∧
    (∀ i, i < 0 ∨ pageTotal d <= i → rejected (Text (Some l) i) w') ∧
    (∀ k, 1 <= k < objTotal d →
       ∃ w'' v rest,
         ((∃ b err, ImageBytes (Some l) k w' = Done (b, err) w'' ∧
                    (err = None ∨ err = Some ErrNotImage))
          ∨ ImageBytes (Some l) k w' = Fatal out_of_memory w'') ∧
         emitted w' w'' =
           EvLock l :: EvCall (pdf_load_object (ctx d) (pdf d) (C_int k)) v :: rest) ∧
    (∀ k, k <= 0 ∨ objTotal d <= k → rejected (ImageBytes (Some l) k) w') ∧
    (∀ k, 1 <= k < objTotal d →
       ¬ rejected (Image (Some l) k) w' ∧
       ∃ v rest, emitted w' (world_of (Image (Some l) k w')) =
           EvLock l :: EvCall (pdf_load_object (ctx d) (pdf d) (C_int k)) v :: rest) ∧
    (∀ k, k <= 0 ∨ objTotal d <= k → rejected (Image (Some l) k) w') ∧
    (∃ r w'' v rest, ToC (Some l) w' = Done r w'' ∧
       emitted w' w'' = EvCall (pdf_load_outline (ctx d) (pdf d)) v :: rest) ∧
    (∃ data w'' vs evss, Metadata (Some l) w' = Done data w'' ∧
       emitted w' w'' = concat evss ∧
       Forall3 (λ kn v evs, lookup_events d kn.2 v evs) metadata_keys vs evss).
Proof.
  intros Hl Hm.
  destruct (Close_run l d w Hl) as (w' & v1 & v2 & Hc & Hdocs & Htr).
  assert (Hl' : docs w' !! l = Some d) by now rewrite Hdocs.
  exists w', v1, v2. split; [done|]. split; [done|]. split; [now apply emitted_app|].
  split; [|split; [|split; [|split; [|split; [|split; [|split]]]]]].
  - intros i Hi.
    destruct (Text_run l d i w' Hl' Hm) as (s & err & w'' & evs & Hrun & _ & Ht & _ & Hcase).
    replace ((i <? 0) || (pageTotal d <=? i)) with false in Hcase
      by (symmetry; apply orb_false_iff; split; [apply Z.ltb_ge|apply Z.leb_gt]; lia).
    destruct Hcase as (-> & v & rest & ->).
    exists s, w'', v, (rest ++ [EvUnlock l]). split; [done|].
    apply emitted_app. rewrite Ht, <- app_assoc. reflexivity.
  - intros i Hi.
    destruct (Text_run l d i w' Hl' Hm) as (s & err & w'' & evs & Hrun & _ & Ht & _ & Hcase).
    replace ((i <? 0) || (pageTotal d <=? i)) with true in Hcase
      by (symmetry; apply orb_true_iff; rewrite Z.ltb_lt, Z.leb_le; lia).
    destruct Hcase as (-> & -> & ->).
    exists ""%string, ErrPageMissing, w''. split; [done|].
    rewrite (emitted_app w' w'' [EvLock l; EvUnlock l]); [repeat constructor|].
    rewrite Ht, <- app_assoc. reflexivity.
  - intros k Hk.
    destruct (ImageBytes_shape l d k w' Hl' Hm) as (w'' & evs & _ & Hcase).
    destruct Hcase as [(b & err & Hrun & _ & Ht & [(Hout & _)|(_ & Herr & v & rest & ->)])
                      |(Hrun & _ & _ & Ht & v & rest & ->)]; [lia| |].
    + exists w'', v, (rest ++ [EvUnlock l]). split; [left; eauto|].
      now apply emitted_app.
    + exists w'', v, rest. split; [now right|]. now apply emitted_app.
  - intros k Hk.
    destruct (ImageBytes_shape l d k w' Hl' Hm) as (w'' & evs & _ & Hcase).
    destruct Hcase as [(b & err & Hrun & _ & Ht & [(_ & -> & -> & ->)|(Hin & _)])
                      |(_ & Hin & _)]; [|lia|lia].
    exists [], ErrObjMissing, w''. split; [done|].
    rewrite (emitted_app w' w'' [EvLock l; EvUnlock l] Ht). repeat constructor.
  - intros k Hk.
    destruct (ImageBytes_shape l d k w' Hl' Hm) as (w'' & evs & _ & Hcase).
    assert (Hev : ∃ v rest, emitted w' (world_of (Image (Some l) k w')) =
              EvLock l :: EvCall (pdf_load_object (ctx d) (pdf d) (C_int k)) v :: rest).
    { rewrite Image_outcome.
      destruct Hcase as [(b & err & Hrun & _ & Ht & [(Hout & _)|(_ & Herr & v & rest & ->)])
                        |(Hrun & _ & _ & Ht & v & rest & ->)]; [lia| |]; rewrite Hrun.
      - exists v, (rest ++ [EvUnlock l]). now apply emitted_app.
      - exists v, rest. now apply emitted_app. }
    split; [|exact Hev].
    intros (a & e & w1 & Hrun & Hno). destruct Hev as (v & rest & Hev).
    rewrite Hrun in Hev. cbn [world_of] in Hev. rewrite Hev in Hno.
    inversion Hno as [|? ? _ Hno']. inversion Hno' as [|? ? Hcall _]. discriminate Hcall.
  - intros k Hk.
    destruct (ImageBytes_shape l d k w' Hl' Hm) as (w'' & evs & _ & Hcase).
    destruct Hcase as [(b & err & Hrun & _ & Ht & [(_ & -> & -> & ->)|(Hin & _)])
                      |(_ & Hin & _)]; [|lia|lia].
    exists None, ErrObjMissing, w''. split; [rewrite Image_outcome, Hrun; reflexivity|].
    rewrite (emitted_app w' w'' [EvLock l; EvUnlock l] Ht). repeat constructor.
  - destruct (ToC_run l d w' Hl') as (w'' & rest & Hrun & _ & Ht & _). cbn zeta in *.
    do 2 eexists. exists (native E (pdf_load_outline (ctx d) (pdf d)) (ns w')).1, rest.
    split; [exact Hrun|]. now apply emitted_app.
  - destruct (Metadata_run l d w' Hl') as (data & w'' & vs & evss & Hrun & _ & Ht & HF & _).
    exists data, w'', vs, evss. split; [done|]. split; [now apply emitted_app|done].
Qed.

(** C1, where the code departs from it.  [ToC] and [Metadata] return
    without one lock or unlock event, whether the mutex of the handle is
    free or held, while they call the boundary on the handle's context. *)
Theorem ToC_Metadata_take_no_lock l d w :
  docs w !! l = Some d →
  (∃ r w', ToC (Some l) w = Done r w' ∧
     Forall (λ e, is_lock_event e = false) (emitted w w') ∧
     Exists (call_on (ctx d)) (emitted w w')) ∧
  (∃ data w', Metadata (Some l) w = Done data w' ∧
     Forall (λ e, is_lock_event e = false) (emitted w w') ∧
     Exists (call_on (ctx d)) (emitted w w')).
Proof.
  intros Hl. split.
  - destruct (ToC_run l d w Hl) as (w' & rest & Hrun & _ & Ht & Hcalls). cbn zeta in *.
    do 2 eexists. split; [exact Hrun|].
    rewrite (emitted_app w w' _ Ht). split.
    + constructor; [done|]. eapply Forall_impl; [exact Hcalls|].
      intros e He. unfold is_call_event in He. now destruct (is_lock_event e).
    + now apply Exists_cons_hd.
  - destruct (Metadata_run l d w Hl) as (data & w' & vs & evss & Hrun & _ & Ht & HF & _).
    exists data, w'. split; [done|]. rewrite (emitted_app w w' _ Ht).
    unfold metadata_keys in HF.
    repeat match goal with
      | H : Forall3 _ (_ :: _) _ _ |- _ =>
          apply Forall3_cons_inv_l in H as (? & ? & ? & ? & -> & -> & ? & H)
      | H : Forall3 _ [] _ _ |- _ => inversion H; subst; clear H
      | H : lookup_events _ _ _ _ |- _ => destruct H as (? & ? & ? & -> & ->)
      end.
    cbn [concat app]. split.
    + repeat constructor.
    + apply Exists_cons_tl, Exists_cons_hd. done.
Qed.

(** X1.  What C1 says does hold of [Text] and [ImageBytes]: on a free mutex
    the events of a call that returns are a lock, calls through the
    boundary, and an unlock, on the error paths as on the others, and the
    mutex is free again afterwards.  [Text] always returns.  [ImageBytes]
    returns unless it ends the process inside [C.GoStringN]; the events
    are then a lock and calls through the boundary, and the mutex is
    held. *)
Theorem Text_ImageBytes_hold_lock l d (i : Z) w :
  docs w !! l = Some d → mtx d = false →
  (∃ r w' evs, Text (Some l) i w = Done r w' ∧
     emitted w w' = EvLock l :: evs ++ [EvUnlock l] ∧ calls_only evs ∧
     docs w' !! l = Some d) ∧
  (∃ w' evs, calls_only evs ∧
     ((∃ r, ImageBytes (Some l) i w = Done r w' ∧
         emitted w w' = EvLock l :: evs ++ [EvUnlock l] ∧ docs w' !! l = Some d)
      ∨ (ImageBytes (Some l) i w = Fatal out_of_memory w' ∧
         emitted w w' = EvLock l :: evs ∧ docs w' !! l = Some (set_mtx true d)))).
Proof.
  intros Hl Hm. split.
  - destruct (Text_run l d i w Hl Hm) as (s & err & w' & evs & Hrun & Hd & Ht & Hc & _).
    exists (s, err), w', evs. split; [done|]. split; [|split; [done|now rewrite Hd]].
    apply emitted_app. rewrite Ht, <- app_assoc. reflexivity.
  - destruct (ImageBytes_shape l d i w Hl Hm) as (w' & evs & Hc & Hcase).
    exists w', evs. split; [done|].
    destruct Hcase as [(b & err & Hrun & Hd & Ht & _)|(Hrun & _ & Hd & Ht & _)].
    + left. exists (b, err). split; [done|]. split; [now apply emitted_app|now rewrite Hd].
    + right. split; [done|]. split; [now apply emitted_app|].
      rewrite Hd. apply lookup_insert_eq.
Qed.

End Claims.

(** * Further properties of [fitz.go] *)

Section Further.
Context {E : Env}.
Implicit Types (w : @World E) (l : loc) (d : Document).

(** [New] checks the file before anything else: when [filepath.Abs] fails,
    its error is returned as it is, and when [os.Stat] fails the error is
    [ErrNoSuchFile]; in both cases no call crosses the boundary, and the
    handle returned is not nil but a fresh zero [Document]. *)
Theorem New_checks_file_first (filename : string) w :
  ∃ l err w', New filename w = Done (Some l, err) w' ∧ docs w !! l = None ∧
    (∀ abs e, filepath_Abs E filename = (abs, Some e) →
       err = Some e ∧ emitted w w' = [] ∧ docs w' !! l = Some Document_zero) ∧
    (∀ abs e, filepath_Abs E filename = (abs, None) → os_Stat E abs = Some e →
       err = Some ErrNoSuchFile ∧ emitted w w' = [] ∧ docs w' !! l = Some Document_zero).
Proof.
  destruct (New_run filename w) as (l & err & w' & evs & d & Hrun & Hfresh & Htr & Hd & Hcase).
  exists l, err, w'. split; [done|]. split; [done|].
  rewrite (emitted_app w w' evs Htr), Hd, lookup_insert_eq.
  split.
  - intros abs e Habs. rewrite Habs in Hcase. destruct Hcase as (-> & -> & ->). done.
  - intros abs e Habs Hstat. rewrite Habs, Hstat in Hcase.
    destruct Hcase as (-> & -> & ->). done.
Qed.

(** Once the file checks pass, [New] creates the context first.  A NULL
    context ends the run with [ErrCreateContext] after that one call.
    Otherwise the run is always the same eight calls: a NULL document does
    not end it, the password check and both counts are made on whatever
    [pdf_open_document] returned, and the copy of the file name is freed
    last.  The error is [ErrNeedsPassword] if the check answered non-zero,
    else [ErrOpenDocument] if the document is NULL, else nil. *)
Theorem New_open_failure_goes_on (filename abs : string) w :
  filepath_Abs E filename = (abs, None) → os_Stat E abs = None →
  ∃ l err w' vc,
    let new_context :=
      EvCall (fz_new_context_imp 0 0 (FZ_STORE_UNLIMITED E) (FZ_VERSION E)) vc in
    New filename w = Done (Some l, err) w' ∧
    (as_ptr vc = 0 →
       err = Some ErrCreateContext ∧ emitted w w' = [new_context] ∧
       docs w' !! l = Some Document_zero) ∧
    (as_ptr vc ≠ 0 →
       ∃ vr vs vp vn vpages vobjs vf,
         emitted w w' =
           [new_context;
            EvCall (fz_register_document_handlers (as_ptr vc)) vr;
            EvCall (CString abs) vs;
            EvCall (pdf_open_document (as_ptr vc) (as_ptr vs)) vp;
            EvCall (pdf_needs_password (as_ptr vc) (as_ptr vp)) vn;
            EvCall (pdf_count_pages (as_ptr vc) (as_ptr vp)) vpages;
            EvCall (pdf_count_objects (as_ptr vc) (as_ptr vp)) vobjs;
            EvCall (free (as_ptr vs)) vf] ∧
         err = (if as_int vn =? 0
                then (if as_ptr vp =? 0 then Some ErrOpenDocument else None)
                else Some ErrNeedsPassword) ∧
         docs w' !! l =
           Some {| ctx := as_ptr vc; pdf := as_ptr vp; pageTotal := as_int vpages;
                   objTotal := as_int vobjs; mtx := false |}).
Proof.
  intros Habs Hstat.
  destruct (New_run filename w) as (l & err & w' & evs & d & Hrun & Hfresh & Htr & Hd & Hcase).
  rewrite Habs, Hstat in Hcase. destruct Hcase as (vc & Hcase). cbn zeta in Hcase.
  exists l, err, w', vc. cbn zeta. split; [done|].
  rewrite (emitted_app w w' evs Htr), Hd, lookup_insert_eq.
  destruct (as_ptr vc =? 0) eqn:Hctx.
  - apply Z.eqb_eq in Hctx. destruct Hcase as (-> & -> & ->).
    split; [done|]. intros Hne. now destruct Hne.
  - apply Z.eqb_neq in Hctx. split; [intros H0; now destruct Hctx|]. intros _.
    destruct Hcase as (vr & vs & vp & vn & vpages & vobjs & vf & -> & -> & ->).
    exists vr, vs, vp, vn, vpages, vobjs, vf. done.
Qed.

(** [NewFromMemory] always returns a fresh non-nil handle.  A NULL context
    gives [ErrCreateContext] after one call; a NULL stream gives
    [ErrOpenMemory] after four, with the context kept in the handle.
    Otherwise the run goes on as in [New], whatever the document pointer
    is, and drops the stream last.  In no run is the copy made by
    [C.CBytes] freed, and in no run is the context or the document
    dropped. *)
Theorem NewFromMemory_paths (b : list byte) w :
  ∃ l err w' vc,
    let new_context :=
      EvCall (fz_new_context_imp 0 0 (FZ_STORE_UNLIMITED E) (FZ_VERSION E)) vc in
    NewFromMemory b w = Done (Some l, err) w' ∧ docs w !! l = None ∧
    (∀ p v, EvCall (free p) v ∉ emitted w w') ∧
    Forall (λ e, is_release e = false) (emitted w w') ∧
    (as_ptr vc = 0 →
       err = Some ErrCreateContext ∧ emitted w w' = [new_context] ∧
       docs w' !! l = Some Document_zero) ∧
    (as_ptr vc ≠ 0 →
       ∃ vr vdata vstream,
         let prefix :=
           [new_context;
            EvCall (fz_register_document_handlers (as_ptr vc)) vr;
            EvCall (CBytes b) vdata;
            EvCall (fz_open_memory (as_ptr vc) (as_ptr vdata) (Z.of_nat (length b)))
              vstream] in
         (as_ptr vstream = 0 →
            err = Some ErrOpenMemory ∧ emitted w w' = prefix ∧
            docs w' !! l = Some (set_ctx (as_ptr vc) Document_zero)) ∧
         (as_ptr vstream ≠ 0 →
            ∃ vp vn vpages vobjs vf,
              emitted w w' = prefix ++
                [EvCall (pdf_open_document_with_stream (as_ptr vc) (as_ptr vstream)) vp;
                 EvCall (pdf_needs_password (as_ptr vc) (as_ptr vp)) vn;
                 EvCall (pdf_count_pages (as_ptr vc) (as_ptr vp)) vpages;
                 EvCall (pdf_count_objects (as_ptr vc) (as_ptr vp)) vobjs;
                 EvCall (fz_drop_stream (as_ptr vc) (as_ptr vstream)) vf] ∧
              err = (if as_int vn =? 0
                     then (if as_ptr vp =? 0 then Some ErrOpenDocument else None)
                     else Some ErrNeedsPassword) ∧
              docs w' !! l =
                Some {| ctx := as_ptr vc; pdf := as_ptr vp; pageTotal := as_int vpages;
                        objTotal := as_int vobjs; mtx := false |})).
Proof.
  destruct (NewFromMemory_run b w)
    as (l & err & w' & evs & d & Hrun & Hfresh & Htr & Hd & vc & Hcase).
  cbn zeta in Hcase. exists l, err, w', vc. cbn zeta. split; [done|]. split; [done|].
  rewrite (emitted_app w w' evs Htr), Hd, lookup_insert_eq.
  destruct (as_ptr vc =? 0) eqn:Hctx.
  - apply Z.eqb_eq in Hctx. destruct Hcase as (-> & -> & ->).
    split; [intros p v Hin; elem_cases Hin|]. split; [repeat constructor|].
    split; [done|]. intros Hne. now destruct Hne.
  - apply Z.eqb_neq in Hctx. destruct Hcase as (vr & vdata & vstream & Hcase).
    destruct (as_ptr vstream =? 0) eqn:Hstream.
    + apply Z.eqb_eq in Hstream. destruct Hcase as (-> & -> & ->).
      split; [intros p v Hin; elem_cases Hin|]. split; [repeat constructor|].
      split; [intros H0; now destruct Hctx|]. intros _.
      exists vr, vdata, vstream. split; [done|]. intros Hne. now destruct Hne.
    + apply Z.eqb_neq in Hstream.
      destruct Hcase as (vp & vn & vpages & vobjs & vf & -> & -> & ->).
      split; [intros p v Hin; cbn [app] in Hin; elem_cases Hin|].
      split; [repeat constructor|].
      split; [intros H0; now destruct Hctx|]. intros _.
      exists vr, vdata, vstream. split; [intros H0; now destruct Hstream|]. intros _.
      exists vp, vn, vpages, vobjs, vf. done.
Qed.

(** Any sequence of [NumPage], [NumObj], [Text], [ImageBytes], [Image],
    [ToC] and [Metadata] calls by one caller on a handle with a free mutex
    neither waits nor panics.  It returns, with lock and unlock events
    alternating, the mutex free at the end and the [Document] as before,
    so that the page and object counts never change after opening; or an
    [ImageBytes] or [Image] call of the sequence ends the process inside
    [C.GoStringN], after [fz_buffer_storage] reported a size that is
    negative as a C [int], and the mutex is then held. *)
Theorem caller_sequence l d (ms : list method) w :
  docs w !! l = Some d → mtx d = false →
  (∃ w', call_methods (Some l) ms w = Done tt w' ∧ docs w' = docs w ∧
     lock_state l false (emitted w w') = Some false ∧
     NumPage (Some l) w' = Done (pageTotal d) w' ∧
     NumObj (Some l) w' = Done (objTotal d) w')
  ∨ (∃ w' c buf vsize, call_methods (Some l) ms w = Fatal out_of_memory w' ∧
       lock_state l false (emitted w w') = Some true ∧
       (∃ k, CallImageBytes k ∈ ms ∨ CallImage k ∈ ms) ∧
       EvCall (fz_buffer_storage c buf) vsize ∈ emitted w w' ∧
       C_int (as_size vsize) < 0).
Proof.
  intros Hl Hm.
  destruct (call_methods_run l d ms w Hl Hm) as (w' & evs & Ht & _ & Hcase).
  rewrite <- (emitted_app w w' evs Ht) in Hcase.
  destruct Hcase as [(Hrun & Hd & Hs) | (Hrun & Hs & Hk & c & buf & vsize & Hin & Hneg)].
  - left. exists w'. split; [done|]. split; [done|]. split; [done|].
    unfold NumPage, NumObj, rd, fmap, M_fmap, mbind, M_bind, deref. cbn.
    now rewrite Hd, Hl.
  - right. exists w', c, buf, vsize. done.
Qed.


(** [contentType] looks at the first 58 bytes only: what follows them
    never changes the answer. *)
Theorem contentType_first_58_bytes (b : list byte) :
  contentType (take 58 b) = contentType b.
Proof.
  unfold contentType. rewrite !ix_take by lia.
  assert (H3 : (3 <? length (take 58 b))%nat = (3 <? length b)%nat).
  { rewrite length_take. destruct (Nat.ltb_spec 3 (length b));
      [apply Nat.ltb_lt | apply Nat.ltb_ge]; lia. }
  assert (H57 : (57 <? length (take 58 b))%nat = (57 <? length b)%nat).
  { rewrite length_take. destruct (Nat.ltb_spec 57 (length b));
      [apply Nat.ltb_lt | apply Nat.ltb_ge]; lia. }
  now rewrite H3, H57.
Qed.

(** One metadata lookup makes three calls: it copies the name to C, looks
    it up into a zeroed 256-byte buffer, and frees the copy.  Its value
    has at most 256 bytes and does not end in a NUL byte.  When the lookup
    writes a string of at most 256 bytes that does not end in NUL, with or
    without its terminator, the value is that string. *)
Theorem Metadata_lookup_value l d (name : string) w :
  docs w !! l = Some d →
  ∃ v w' ckey r u, Metadata_lookup (Some l) name w = Done v w' ∧ docs w' = docs w ∧
    emitted w w' =
      [EvCall (CString name) ckey;
       EvCall (pdf_lookup_metadata (ctx d) (pdf d) (as_ptr ckey) (replicate 256 x00) 256) r;
       EvCall (free (as_ptr ckey)) u] ∧
    (length (bytes_of_string v) <= 256)%nat ∧
    last (bytes_of_string v) ≠ Some x00 ∧
    (∀ s : list byte, (length s <= 256)%nat → last s ≠ Some x00 →
       as_bytes r = s ∨ as_bytes r = s ++ [x00] → v = string_of_bytes s).
Proof.
  destruct w as [hp n t]. cbn [docs]. intros Hl.
  assert (Hwp : wp (Metadata_lookup (Some l) name) (mkWorld hp n t)
    (λ v w', ∃ evs, docs w' = hp ∧ trace w' = t ++ evs ∧ lookup_events d name v evs)).
  { apply (wp_Metadata_lookup l d); [done|]. intros v evs n' Hev. now exists evs. }
  apply wp_elim in Hwp as (v & w' & Hrun & evs & Hd & Ht & ckey & r & u & -> & ->).
  exists (metadata_value (as_bytes r)), w', ckey, r, u. split; [done|]. split; [done|].
  split; [now apply emitted_app|].
  unfold metadata_value. rewrite bytes_of_string_of_bytes.
  split; [|split].
  - etrans; [apply TrimRight_length|]. now rewrite written_over_length, length_replicate.
  - apply TrimRight_last.
  - intros s Hlen Hlast Hr. f_equal.
    assert (Hover : ∃ k, written_over (replicate 256 x00) (as_bytes r) = s ++ replicate k x00).
    { unfold written_over. rewrite length_replicate, drop_replicate.
      destruct Hr as [-> | ->].
      - exists (256 - length s)%nat.
        rewrite take_ge; [done|]. rewrite length_app, length_replicate. lia.
      - rewrite <- app_assoc. change ([x00] ++ ?k) with (replicate 1 x00 ++ k).
        rewrite <- replicate_add, take_app, take_replicate.
        rewrite (take_ge s) by lia. eauto. }
    destruct Hover as [k ->]. rewrite TrimRight_nul_tail. now apply TrimRight_id.
Qed.

(** [walk] only appends to the slice it is given, one entry per node of
    the forest, in pre-order, with the node's title, URI, page and
    offset; this holds at every starting level and for every depth. *)
Theorem walk_appends_preorder (o : fz_outline) (level : Z) (data : list Outline) :
  walk o level data = data ++ walk o level [] ∧
  entry_fields <$> walk o level [] = preorder o ∧
  length (walk o level data) = (length data + length (preorder o))%nat.
Proof.
  split; [apply walk_app|]. split; [apply walk_fields|].
  rewrite walk_app, length_app, <- (walk_fields o level), length_fmap. done.
Qed.



(** [Close] takes no lock and makes two calls: it drops the document, then
    the context.  It keeps no record of having run: [k] calls in a row
    drop the same document and the same context [k] times. *)
Theorem Close_drops_every_time l d (k : nat) w :
  docs w !! l = Some d →
  ∃ w', Close_times k (Some l) w = Done (replicate k None) w' ∧ docs w' = docs w ∧
    Forall (λ e, is_lock_event e = false) (emitted w w') ∧
    calls_of (emitted w w') =
      concat (replicate k [pdf_drop_document (ctx d) (pdf d); fz_drop_context (ctx d)]).
Proof.
  intros Hl.
  assert (Hrun : ∃ w' evs, Close_times k (Some l) w = Done (replicate k None) w' ∧
    docs w' = docs w ∧ trace w' = trace w ++ evs ∧
    Forall (λ e, is_lock_event e = false) evs ∧
    calls_of evs =
      concat (replicate k [pdf_drop_document (ctx d) (pdf d); fz_drop_context (ctx d)])).
  { revert w Hl. induction k as [|k IH]; intros w Hl; cbn [Close_times replicate concat].
    - exists w, []. rewrite app_nil_r. repeat split; constructor.
    - destruct (Close_run l d w Hl) as (w1 & v1 & v2 & Hc & Hd1 & Ht1).
      destruct (IH w1) as (w2 & evs & Hk & Hd2 & Ht2 & Hlk & Hcalls); [now rewrite Hd1|].
      eexists w2, (_ :: _ :: evs). unfold mbind, M_bind. rewrite Hc, Hk.
      split; [done|]. split; [congruence|].
      split; [rewrite Ht2, Ht1, <- app_assoc; reflexivity|].
      split; [repeat (constructor; [done|]); exact Hlk|].
      cbn. now rewrite <- Hcalls. }
  destruct Hrun as (w' & evs & Hrun & Hd & Ht & Hlk & Hcalls).
  exists w'. rewrite (emitted_app w w' evs Ht). done.
Qed.

(** [Text] on a page number in range: the page is loaded and run through a
    structured-text device with the identity matrix and no caching; the
    result is the Go copy of the string of the buffer made from the
    structured text.  Buffer, device, structured text and page are each
    dropped once, in the reverse order of their creation, before the
    unlock. *)
Theorem Text_releases_in_reverse l d (i : Z) w :
  docs w !! l = Some d → mtx d = false → 0 <= i < pageTotal d →
  ∃ w' vpage vbounds vctm vtext vdev vbuf vstr vs u1 u2 u3 u4 u5 u6 u7,
    let c := ctx d in
    let page := as_ptr vpage in
    let text := as_ptr vtext in
    let device := as_ptr vdev in
    let buf := as_ptr vbuf in
    Text (Some l) i w = Done (string_of_bytes (as_bytes vs), None) w' ∧
    emitted w w' =
      [EvLock l;
       EvCall (pdf_load_page c (pdf d) (C_int i)) vpage;
       EvCall (pdf_bound_page c page) vbounds;
       EvCall (fz_scale float_1_0 float_1_0) vctm;
       EvCall (fz_new_stext_page c (as_struct vbounds)) vtext;
       EvCall (fz_new_stext_device c text 0) vdev;
       EvCall (fz_enable_device_hints c device (FZ_NO_CACHE E)) u1;
       EvCall (pdf_run_page c page device (as_struct vctm)) u2;
       EvCall (fz_close_device c device) u3;
       EvCall (fz_new_buffer_from_stext_page c text) vbuf;
       EvCall (fz_string_from_buffer c buf) vstr;
       EvCall (GoString (as_ptr vstr)) vs;
       EvCall (fz_drop_buffer c buf) u4;
       EvCall (fz_drop_device c device) u5;
       EvCall (fz_drop_stext_page c text) u6;
       EvCall (fz_drop_page c page) u7;
       EvUnlock l].
Proof.
  destruct w as [hp n t]. cbn [docs]. intros Hl Hm Hi.
  assert (Hwp : wp (Text (Some l) i) (mkWorld hp n t) (λ r w',
    ∃ vpage vbounds vctm vtext vdev vbuf vstr vs u1 u2 u3 u4 u5 u6 u7,
    r = (string_of_bytes (as_bytes vs), None) ∧
    trace w' = t ++
      [EvLock l;
       EvCall (pdf_load_page (ctx d) (pdf d) (C_int i)) vpage;
       EvCall (pdf_bound_page (ctx d) (as_ptr vpage)) vbounds;
       EvCall (fz_scale float_1_0 float_1_0) vctm;
       EvCall (fz_new_stext_page (ctx d) (as_struct vbounds)) vtext;
       EvCall (fz_new_stext_device (ctx d) (as_ptr vtext) 0) vdev;
       EvCall (fz_enable_device_hints (ctx d) (as_ptr vdev) (FZ_NO_CACHE E)) u1;
       EvCall (pdf_run_page (ctx d) (as_ptr vpage) (as_ptr vdev) (as_struct vctm)) u2;
       EvCall (fz_close_device (ctx d) (as_ptr vdev)) u3;
       EvCall (fz_new_buffer_from_stext_page (ctx d) (as_ptr vtext)) vbuf;
       EvCall (fz_string_from_buffer (ctx d) (as_ptr vbuf)) vstr;
       EvCall (GoString (as_ptr vstr)) vs;
       EvCall (fz_drop_buffer (ctx d) (as_ptr vbuf)) u4;
       EvCall (fz_drop_device (ctx d) (as_ptr vdev)) u5;
       EvCall (fz_drop_stext_page (ctx d) (as_ptr vtext)) u6;
       EvCall (fz_drop_page (ctx d) (as_ptr vpage)) u7;
       EvUnlock l])).
  { unfold Text. wp_run.
    replace ((i <? 0) || (pageTotal d <=? i)) with false
      by (symmetry; apply orb_false_iff; split; [apply Z.ltb_ge|apply Z.leb_gt]; lia).
    wp_run. do 15 eexists. split; [reflexivity|]. trace_eq. }
  apply wp_elim in Hwp
    as (r & w' & Hrun & vpage & vbounds & vctm & vtext & vdev & vbuf & vstr & vs
          & u1 & u2 & u3 & u4 & u5 & u6 & u7 & -> & Ht).
  exists w', vpage, vbounds, vctm, vtext, vdev, vbuf, vstr, vs, u1, u2, u3, u4, u5, u6, u7.
  cbn zeta. split; [done|]. now apply emitted_app.
Qed.

(** [ImageBytes k] on a handle with a free mutex goes one of four ways.
    Out of range: [ErrObjMissing], and no call but the lock and unlock.
    In range, when the comparison of the object's [Subtype] with [Image]
    does not answer 1: [ErrNotImage], no further call.  When it answers 1,
    the run builds an indirect reference to object [k] with generation 0,
    loads the image from it, encodes it as PNG into a buffer, and asks for
    the buffer's size and bytes.  If the size is not negative as a C
    [int], that many bytes are copied and returned with a nil error, and
    buffer, image and reference are dropped in the reverse order of their
    creation before the unlock.  If it is negative, the process ends in
    [C.GoStringN]: nothing is dropped and the mutex stays held.  The
    object loaded for the test is handed to no call but [pdf_dict_get]. *)
Theorem ImageBytes_paths l d (k : Z) w :
  docs w !! l = Some d → mtx d = false →
  ImageBytes_outcome l d k w (ImageBytes (Some l) k w).
Proof. apply ImageBytes_run. Qed.


(** Every method on a nil handle panics on the nil dereference.  [NumPage],
    [NumObj], [Text], [ImageBytes], [Image], [ToC] and [Close] do so before
    any call crosses the boundary; [Metadata] has by then copied the first
    key to C, and frees the copy on the way out. *)
Theorem nil_handle_panics (i : Z) w :
  NumPage None w = Panic nil_dereference w ∧
  NumObj None w = Panic nil_dereference w ∧
  Text None i w = Panic nil_dereference w ∧
  ImageBytes None i w = Panic nil_dereference w ∧
  Image None i w = Panic nil_dereference w ∧
  ToC None w = Panic nil_dereference w ∧
  Close None w = Panic nil_dereference w ∧
  ∃ w' vkey u, Metadata None w = Panic nil_dereference w' ∧ docs w' = docs w ∧
    emitted w w' = [EvCall (CString "format") vkey; EvCall (free (as_ptr vkey)) u].
Proof.
  repeat split; try reflexivity.
  destruct w as [hp n t].
  destruct (native E (CString "format") n) as [vkey n1] eqn:H1.
  destruct (native E (free (as_ptr vkey)) n1) as [u n2] eqn:H2.
  exists (mkWorld hp n2 ((t ++ [EvCall (CString "format") vkey])
                           ++ [EvCall (free (as_ptr vkey)) u])), vkey, u.
  split; [|split; [done|]].
  - assert (Hlookup : Metadata_lookup None "format" (mkWorld hp n t) =
      Panic nil_dereference
        (mkWorld hp n2 ((t ++ [EvCall (CString "format") vkey])
                          ++ [EvCall (free (as_ptr vkey)) u]))).
    { unfold Metadata_lookup.
      rewrite (bind_Done _ _ (mkWorld hp n t) (as_ptr vkey)
                 (mkWorld hp n1 (t ++ [EvCall (CString "format") vkey])))
        by (unfold fmap, M_fmap, mbind, M_bind, call; cbn; now rewrite H1).
      unfold defer.
      rewrite (bind_Panic _ _ _ nil_dereference
                 (mkWorld hp n1 (t ++ [EvCall (CString "format") vkey]))) by reflexivity.
      unfold call. cbn [ns docs trace]. now rewrite H2. }
    unfold Metadata. now rewrite (bind_Panic _ _ _ _ _ Hlookup).
  - apply emitted_app. cbn [trace]. now rewrite <- app_assoc.
Qed.

(** When the file does not exist, [New] returns [ErrNoSuchFile] together
    with a handle that has no context.  On that handle [Text], [ImageBytes]
    and [Image] reject every number without a call through the boundary,
    while [ToC] and [Close] hand the NULL context and document to the
    native library. *)
Theorem missing_file_handle (filename abs : string) (e : error) w :
  filepath_Abs E filename = (abs, None) → os_Stat E abs = Some e →
  ∃ l w', New filename w = Done (Some l, Some ErrNoSuchFile) w' ∧
    (∀ i, rejected (Text (Some l) i) w') ∧
    (∀ k, rejected (ImageBytes (Some l) k) w') ∧
    (∀ k, rejected (Image (Some l) k) w') ∧
    (∃ r w'' rest, ToC (Some l) w' = Done r w'' ∧
       calls_of (emitted w' w'') = pdf_load_outline 0 0 :: rest) ∧
    (∃ w'', Close (Some l) w' = Done None w'' ∧
       calls_of (emitted w' w'') = [pdf_drop_document 0 0; fz_drop_context 0]).
Proof.
  intros Habs Hstat.
  destruct (New_run filename w) as (l & err & w' & evs & d & Hrun & Hfresh & Htr & Hd & Hcase).
  rewrite Habs, Hstat in Hcase. destruct Hcase as (-> & -> & ->).
  assert (Hl : docs w' !! l = Some Document_zero) by now rewrite Hd, lookup_insert_eq.
  exists l, w'. split; [done|].
  assert (Hrej : ∀ k, ∃ w'', ImageBytes (Some l) k w' = Done ([], Some ErrObjMissing) w'' ∧
                        emitted w' w'' = [EvLock l; EvUnlock l]).
  { intros k.
    destruct (ImageBytes_shape l Document_zero k w' Hl eq_refl) as (w'' & evs & _ & Hcase).
    cbn [objTotal Document_zero] in Hcase.
    destruct Hcase as [(b & err & Hib & _ & Ht & [(_ & -> & -> & ->)|(Hin & _)])
                      |(_ & Hin & _)]; [|lia|lia].
    exists w''. split; [done|]. now apply emitted_app. }
  split; [|split; [|split; [|split]]].
  - intros i.
    destruct (Text_run l Document_zero i w' Hl eq_refl)
      as (s & err & w'' & evs & Ht & _ & Htr' & _ & Hcase).
    replace ((i <? 0) || (pageTotal Document_zero <=? i)) with true in Hcase
      by (symmetry; apply orb_true_iff; rewrite Z.ltb_lt, Z.leb_le; cbn; lia).
    destruct Hcase as (-> & -> & ->).
    exists ""%string, ErrPageMissing, w''. split; [done|].
    rewrite (emitted_app w' w'' [EvLock l; EvUnlock l]); [repeat constructor|].
    rewrite Htr', <- app_assoc. reflexivity.
  - intros k. destruct (Hrej k) as (w'' & Hib & Hem).
    exists [], ErrObjMissing, w''. split; [done|]. rewrite Hem. repeat constructor.
  - intros k. destruct (Hrej k) as (w'' & Hib & Hem).
    exists None, ErrObjMissing, w''. split.
    + unfold Image, mbind, M_bind. now rewrite Hib.
    + rewrite Hem. repeat constructor.
  - destruct (ToC_run l Document_zero w' Hl) as (w'' & rest & Ht & _ & Htr' & _).
    cbn zeta in *. do 2 eexists. exists (calls_of rest). split; [exact Ht|].
    rewrite (emitted_app w' w'' _ Htr'). reflexivity.
  - destruct (Close_run l Document_zero w' Hl) as (w'' & v1 & v2 & Hc & _ & Htr').
    exists w''. split; [done|]. rewrite (emitted_app w' w'' _ Htr'). reflexivity.
Qed.

End Further.

(** * The theorems at concrete inputs

    The runs below are on the boundary of [Toy]: a document of two pages
    and four objects opened by [New "toy.pdf"]. *)

Lemma Toy_opened :
  New (E:=Toy.env false) "toy.pdf" (Toy.w0 false) = Done (Toy.handle, None) (Toy.opened false)
  ∧ docs (Toy.opened false) !! 0%nat = Some Toy.document.
Proof.
  split; [|vm_compute; reflexivity].
  apply (value_of_Done (New (E:=Toy.env false) "toy.pdf" (Toy.w0 false))).
  vm_compute. reflexivity.
Qed.

(** An encrypted document: the error comes with counts and a live handle. *)
Lemma Toy_opened_encrypted :
  New (E:=Toy.env true) "toy.pdf" (Toy.w0 true)
    = Done (Toy.handle, Some ErrNeedsPassword) (Toy.opened true)
  ∧ docs (Toy.opened true) !! 0%nat = Some Toy.document
  ∧ trace (Toy.opened true) !! 4%nat = Some (EvCall (pdf_needs_password 1000 3000) (VInt 1)).
Proof.
  split; [|split; vm_compute; reflexivity].
  apply (value_of_Done (New (E:=Toy.env true) "toy.pdf" (Toy.w0 true))).
  vm_compute. reflexivity.
Qed.

Lemma Text_page_range_witness :
  docs (Toy.opened false) !! 0%nat = Some Toy.document ∧ mtx Toy.document = false ∧
  ∃ s w', Text (E:=Toy.env false) Toy.handle 1 (Toy.opened false) = Done (s, None) w'.
Proof.
  split; [vm_compute; reflexivity|]. split; [reflexivity|].
  destruct (Text_page_range (E:=Toy.env false) 0%nat Toy.document 1 (Toy.opened false))
    as (_ & s & err & w' & Hrun & _ & Hok & _); [vm_compute; reflexivity | reflexivity |].
  rewrite Hok in Hrun by (cbn; lia). eauto.
Defined.

Lemma ToC_levels_witness :
  docs (Toy.opened false) !! 0%nat = Some Toy.document ∧
  outline_depth Toy.outline < 2 ^ 63 ∧
  ∃ err w', ToC (E:=Toy.env false) Toy.handle (Toy.opened false) = Done (flatten Toy.outline 1, err) w'.
Proof.
  split; [vm_compute; reflexivity|]. split; [vm_compute; reflexivity|].
  destruct (ToC_levels (E:=Toy.env false) 0%nat Toy.document (Toy.opened false))
    as (data & err & w' & Hrun & Hdata & _);
    [vm_compute; reflexivity | vm_compute; reflexivity |].
  exists err, w'. subst data. exact Hrun.
Defined.

Lemma Metadata_ten_keys_witness :
  docs (Toy.opened false) !! 0%nat = Some Toy.document ∧
  ∃ data w', Metadata (E:=Toy.env false) Toy.handle (Toy.opened false) = Done data w'
    ∧ size data = 10%nat.
Proof.
  split; [vm_compute; reflexivity|].
  destruct (Metadata_ten_keys (E:=Toy.env false) 0%nat Toy.document (Toy.opened false))
    as (data & w' & vs & evss & Hrun & _ & Hsize & _); [vm_compute; reflexivity|].
  eauto.
Defined.

Lemma Close_sets_no_guard_witness :
  docs (Toy.opened false) !! 0%nat = Some Toy.document ∧ mtx Toy.document = false ∧
  ∃ w', Close (E:=Toy.env false) Toy.handle (Toy.opened false) = Done None w'
    ∧ docs w' !! 0%nat = Some Toy.document.
Proof.
  split; [vm_compute; reflexivity|]. split; [reflexivity|].
  destruct (Close_sets_no_guard (E:=Toy.env false) 0%nat Toy.document (Toy.opened false))
    as (w' & v1 & v2 & Hrun & Hdoc & _); [vm_compute; reflexivity | reflexivity |].
  eauto.
Defined.

Lemma ToC_Metadata_take_no_lock_witness :
  docs (Toy.opened false) !! 0%nat = Some Toy.document ∧
  ∃ r w', ToC (E:=Toy.env false) Toy.handle (Toy.opened false) = Done r w'
    ∧ Forall (λ e, is_lock_event e = false) (emitted (Toy.opened false) w').
Proof.
  split; [vm_compute; reflexivity|].
  destruct (ToC_Metadata_take_no_lock (E:=Toy.env false) 0%nat Toy.document (Toy.opened false))
    as [(r & w' & Hrun & Hlock & _) _]; [vm_compute; reflexivity|].
  eauto.
Defined.

Lemma Text_ImageBytes_hold_lock_witness :
  docs (Toy.opened false) !! 0%nat = Some Toy.document ∧ mtx Toy.document = false ∧
  ∃ r w' evs, Text (E:=Toy.env false) Toy.handle 0 (Toy.opened false) = Done r w'
    ∧ emitted (Toy.opened false) w' = EvLock 0%nat :: evs ++ [EvUnlock 0%nat].
Proof.
  split; [vm_compute; reflexivity|]. split; [reflexivity|].
  destruct (Text_ImageBytes_hold_lock (E:=Toy.env false) 0%nat Toy.document 0 (Toy.opened false))
    as [(r & w' & evs & Hrun & Hem & _) _]; [vm_compute; reflexivity | reflexivity |].
  eauto.
Defined.

(** C2 as stated fails.  A document is opened, page 0 is read, the handle
    is closed; after that [Text], [ImageBytes], [Image] and [ToC] are not
    rejected: each returns a nil error, having called the boundary on the
    dropped context. *)
Lemma use_after_Close_not_rejected :
  Text (E:=Toy.env false) Toy.handle 0 (Toy.opened false)
    = Done ("Hello"%string, None) Toy.read
  ∧ Close Toy.handle Toy.read = Done None Toy.closed
  ∧ trace Toy.closed !! 26%nat = Some (EvCall (fz_drop_context 1000) VUnit)
  ∧ ¬ rejected (Text Toy.handle 0) Toy.closed
  ∧ ¬ rejected (ImageBytes Toy.handle 2) Toy.closed
  ∧ ¬ rejected (Image Toy.handle 2) Toy.closed
  ∧ ¬ rejected (ToC Toy.handle) Toy.closed
  ∧ value_of (Text Toy.handle 0 Toy.closed) = Some ("Hello"%string, None)
  ∧ emitted Toy.closed (world_of (Text Toy.handle 0 Toy.closed)) !! 1%nat
      = Some (EvCall (pdf_load_page 1000 3000 0) (VPtr 4000)).
Proof.
  split.
  { apply (value_of_Done (Text (E:=Toy.env false) Toy.handle 0 (Toy.opened false))).
    vm_compute. reflexivity. }
  split.
  { apply (value_of_Done (Close (E:=Toy.env false) Toy.handle Toy.read)).
    vm_compute. reflexivity. }
  split; [vm_compute; reflexivity|].
  repeat split;
    try (intros [e He]%rejected_value; vm_compute in He; discriminate He);
    vm_compute; reflexivity.
Qed.

(** C3, where the code departs from it.  Object 2 of the document is an
    image whose PNG buffer is reported to hold [2^31] bytes.  [C.int] of
    that size is negative, and [ImageBytes 2] ends the process in
    [C.GoStringN]: it returns neither bytes nor [ErrNotImage], the last
    call of the run is [fz_string_from_buffer], nothing is dropped, and the
    mutex stays held. *)
Lemma ImageBytes_huge_png_is_fatal :
  docs Toy.opened_huge !! 0%nat = Some Toy.document ∧
  1 <= 2 < objTotal Toy.document ∧
  fatal_of (ImageBytes (E:=Toy.env_huge) Toy.handle 2 Toy.opened_huge)
    = Some out_of_memory ∧
  value_of (ImageBytes (E:=Toy.env_huge) Toy.handle 2 Toy.opened_huge) = None ∧
  calls_of (emitted Toy.opened_huge
              (world_of (ImageBytes (E:=Toy.env_huge) Toy.handle 2 Toy.opened_huge)))
    = [pdf_load_object 1000 3000 2;
       pdf_dict_get 1000 6002 Toy.name_Subtype;
       pdf_name_eq 1000 Toy.name_Image Toy.name_Image;
       pdf_new_indirect 1000 3000 2 0;
       pdf_load_image 1000 3000 6102;
       fz_new_buffer_from_image_as_png 1000 6200;
       fz_buffer_storage 1000 6300;
       fz_string_from_buffer 1000 6300] ∧
  emitted Toy.opened_huge
      (world_of (ImageBytes (E:=Toy.env_huge) Toy.handle 2 Toy.opened_huge)) !! 7%nat
    = Some (EvCall (fz_buffer_storage 1000 6300) (VInt (2 ^ 31))) ∧
  C_int (as_size (VInt (2 ^ 31))) = - 2 ^ 31 ∧
  docs (world_of (ImageBytes (E:=Toy.env_huge) Toy.handle 2 Toy.opened_huge)) !! 0%nat
    = Some (set_mtx true Toy.document).
Proof. repeat split; vm_compute; congruence. Qed.

Lemma open_encrypted_keeps_handle_witness :
  filepath_Abs (Toy.env true) "toy.pdf" = ("/toy.pdf"%string, None) ∧
  os_Stat (Toy.env true) "/toy.pdf" = None ∧
  (∃ l w', New (E:=Toy.env true) "toy.pdf" (Toy.w0 true)
             = Done (Some l, Some ErrNeedsPassword) w') ∧
  (∃ l w', NewFromMemory (E:=Toy.env true) Toy.png (Toy.w0 true)
             = Done (Some l, Some ErrNeedsPassword) w').
Proof.
  split; [reflexivity|]. split; [reflexivity|].
  destruct (open_encrypted_keeps_handle (E:=Toy.env true) "toy.pdf" "/toy.pdf" Toy.png
              (Toy.w0 true) eq_refl eq_refl)
    as [(l & err & w' & vc & Hrun & _) (l2 & err2 & w2 & vc2 & vs2 & Hrun2 & _)].
  split.
  - exists l, w'. rewrite Hrun. apply (f_equal value_of) in Hrun.
    vm_compute in Hrun. injection Hrun as _ <-. reflexivity.
  - exists l2, w2. rewrite Hrun2. apply (f_equal value_of) in Hrun2.
    vm_compute in Hrun2. injection Hrun2 as _ <-. reflexivity.
Defined.


(** ** The further properties at concrete inputs *)

Lemma New_open_failure_goes_on_witness :
  filepath_Abs (Toy.env false) "toy.pdf" = ("/toy.pdf"%string, None) ∧
  os_Stat (Toy.env false) "/toy.pdf" = None ∧
  ∃ l err w', New (E:=Toy.env false) "toy.pdf" (Toy.w0 false) = Done (Some l, err) w'.
Proof.
  split; [reflexivity|]. split; [reflexivity|].
  destruct (New_open_failure_goes_on (E:=Toy.env false) "toy.pdf" "/toy.pdf" (Toy.w0 false))
    as (l & err & w' & vc & Hrun & _); [reflexivity | reflexivity |].
  eauto.
Defined.

Lemma caller_sequence_witness :
  docs (Toy.opened false) !! 0%nat = Some Toy.document ∧ mtx Toy.document = false ∧
  ∃ w', call_methods (E:=Toy.env false) Toy.handle
          [CallText 0; CallToC; CallImage 2; CallMetadata; CallText 5; CallNumObj]
          (Toy.opened false) = Done tt w'
    ∧ lock_state 0%nat false (emitted (Toy.opened false) w') = Some false.
Proof.
  split; [vm_compute; reflexivity|]. split; [reflexivity|].
  destruct (caller_sequence (E:=Toy.env false) 0%nat Toy.document
              [CallText 0; CallToC; CallImage 2; CallMetadata; CallText 5; CallNumObj]
              (Toy.opened false))
    as [(w' & Hrun & _ & Hlocks & _) | (w' & c & buf & vsize & Hrun & _)];
    [vm_compute; reflexivity | reflexivity | eauto |].
  apply (f_equal value_of) in Hrun. vm_compute in Hrun. discriminate Hrun.
Defined.

Lemma Metadata_lookup_value_witness :
  docs (Toy.opened false) !! 0%nat = Some Toy.document ∧
  ∃ v w', Metadata_lookup (E:=Toy.env false) Toy.handle "info:Title" (Toy.opened false)
            = Done v w'
    ∧ (length (bytes_of_string v) <= 256)%nat.
Proof.
  split; [vm_compute; reflexivity|].
  destruct (Metadata_lookup_value (E:=Toy.env false) 0%nat Toy.document "info:Title"
              (Toy.opened false))
    as (v & w' & ckey & r & u & Hrun & _ & _ & Hlen & _); [vm_compute; reflexivity|].
  eauto.
Defined.


Lemma Close_drops_every_time_witness :
  docs (Toy.opened false) !! 0%nat = Some Toy.document ∧
  ∃ w', Close_times (E:=Toy.env false) 2 Toy.handle (Toy.opened false)
          = Done [None; None] w'
    ∧ calls_of (emitted (Toy.opened false) w')
        = [pdf_drop_document 1000 3000; fz_drop_context 1000;
           pdf_drop_document 1000 3000; fz_drop_context 1000].
Proof.
  split; [vm_compute; reflexivity|].
  destruct (Close_drops_every_time (E:=Toy.env false) 0%nat Toy.document 2 (Toy.opened false))
    as (w' & Hrun & _ & _ & Hcalls); [vm_compute; reflexivity|].
  eauto.
Defined.

Lemma Text_releases_in_reverse_witness :
  docs (Toy.opened false) !! 0%nat = Some Toy.document ∧ mtx Toy.document = false ∧
  0 <= 1 < pageTotal Toy.document ∧
  ∃ s w', Text (E:=Toy.env false) Toy.handle 1 (Toy.opened false) = Done (s, None) w'
    ∧ length (emitted (Toy.opened false) w') = 17%nat.
Proof.
  split; [vm_compute; reflexivity|]. split; [reflexivity|]. split; [cbn; lia|].
  destruct (Text_releases_in_reverse (E:=Toy.env false) 0%nat Toy.document 1
              (Toy.opened false))
    as (w' & vpage & vbounds & vctm & vtext & vdev & vbuf & vstr & vs
          & u1 & u2 & u3 & u4 & u5 & u6 & u7 & Hrun & Hem);
    [vm_compute; reflexivity | reflexivity | cbn; lia |].
  cbn zeta in *. eexists _, w'. split; [exact Hrun|]. now rewrite Hem.
Defined.

Lemma ImageBytes_paths_witness :
  docs (Toy.opened false) !! 0%nat = Some Toy.document ∧ mtx Toy.document = false ∧
  ImageBytes_outcome (E:=Toy.env false) 0%nat Toy.document 2 (Toy.opened false)
    (ImageBytes Toy.handle 2 (Toy.opened false)) ∧
  value_of (ImageBytes (E:=Toy.env false) Toy.handle 2 (Toy.opened false))
    = Some (Toy.png, None).
Proof.
  split; [vm_compute; reflexivity|]. split; [reflexivity|].
  split; [|vm_compute; reflexivity].
  apply (ImageBytes_paths (E:=Toy.env false) 0%nat Toy.document 2 (Toy.opened false));
    [vm_compute; reflexivity | reflexivity].
Defined.

Lemma missing_file_handle_witness :
  filepath_Abs (Toy.env false) "missing.pdf" = ("/missing.pdf"%string, None) ∧
  is_Some (os_Stat (Toy.env false) "/missing.pdf") ∧
  ∃ l w', New (E:=Toy.env false) "missing.pdf" (Toy.w0 false)
            = Done (Some l, Some ErrNoSuchFile) w'
    ∧ rejected (Text (Some l) 0) w'.
Proof.
  split; [reflexivity|]. split; [eexists; reflexivity|].
  destruct (missing_file_handle (E:=Toy.env false) "missing.pdf" "/missing.pdf"
              (foreign "stat /missing.pdf: no such file or directory") (Toy.w0 false))
    as (l & w' & Hrun & Htext & _); [reflexivity | reflexivity |].
  eauto.
Defined.

